(** * mindnoscape/local-app/script: the two maintenance scripts

    [dbprint.py] dumps every table of the SQLite file ./data/mindnoscape.db
    to standard output; [linecount.py] walks a directory tree and counts the
    files whose name ends in ".go" and their lines.

    Both scripts are embedded as computations over an explicit process
    state (standard output, the connection, the local counters) that may
    stop with a Python exception.  The state survives an exception, so that
    what an aborted run has printed or left open can be observed. *)

From Stdlib Require Import String Ascii ZArith List Lia Bool DecimalString.
From Stdlib Require Import Permutation Sorted.
From Stdlib.Strings Require Import Byte.
Import ListNotations.

Local Open Scope string_scope.

(** ** Python values and builtins shared by the two scripts *)

Inductive os_error := EACCES | ENOENT | EOTHER.

Inductive exn :=
| OSError (errno : os_error) (path : string)
| UnicodeDecodeError
| SqliteError (msg : string)
| IndexError.

Inductive outcome (A : Type) :=
| Returned (a : A)
| Raised (e : exn).
Arguments Returned {A} a.
Arguments Raised {A} e.

(** A computation over a process state [S]. *)
Definition M (S A : Type) : Type := S -> outcome A * S.

Definition ret {S A} (a : A) : M S A := fun s => (Returned a, s).

Definition raise {S A} (e : exn) : M S A := fun s => (Raised e, s).

Definition bind {S A B} (c : M S A) (k : A -> M S B) : M S B :=
  fun s =>
    match c s with
    | (Returned a, s') => k a s'
    | (Raised e, s') => (Raised e, s')
    end.

Declare Scope py_scope.
Delimit Scope py_scope with py.
Notation "x <- c ;; k" := (bind c (fun x => k))
  (at level 61, c at next level, right associativity) : py_scope.
Notation "c ;; k" := (bind c (fun _ => k))
  (at level 61, right associativity) : py_scope.
Local Open Scope py_scope.

Definition modify {S} (f : S -> S) : M S unit := fun s => (Returned tt, f s).
Definition gets {S A} (f : S -> A) : M S A := fun s => (Returned (f s), s).

(** [for x in l: body(x)] *)
Fixpoint for_each {S A} (l : list A) (body : A -> M S unit) : M S unit :=
  match l with
  | [] => ret tt
  | x :: l' => body x ;; for_each l' body
  end.

Definition nl : string := String (ascii_of_nat 10) "".
Definition dquote : ascii := ascii_of_nat 34.
Definition squote : ascii := ascii_of_nat 39.
Definition backslash : ascii := ascii_of_nat 92.

(** The text of a list of lines, each ended by a newline. *)
Fixpoint unlines (ls : list string) : string :=
  match ls with
  | [] => ""
  | l :: ls' => l ++ nl ++ unlines ls'
  end.

(** [str(n)] of a Python int. *)
Definition str_int (z : Z) : string := NilZero.string_of_int (Z.to_int z).

(** [s.endswith(suffix)]: some tail of [s] is [suffix]. *)
Fixpoint endswith (s suffix : string) : bool :=
  if String.eqb s suffix then true
  else match s with
       | EmptyString => false
       | String _ s' => endswith s' suffix
       end.

(** [s.startswith(prefix)] *)
Definition startswith (s pre : string) : bool := String.prefix pre s.

Fixpoint contains (c : ascii) (s : string) : bool :=
  match s with
  | EmptyString => false
  | String d s' => Ascii.eqb c d || contains c s'
  end.

Definition hex_digit (n : nat) : ascii :=
  nth n (list_ascii_of_string "0123456789abcdef") "0"%char.

Definition hex2 (n : nat) : string :=
  String (hex_digit (n / 16)) (String (hex_digit (n mod 16)) "").

(** The quote [repr] puts around a str or bytes literal: a single quote,
    unless the text has a single quote and no double quote. *)
Definition repr_quote (s : string) : ascii :=
  if contains squote s && negb (contains dquote s) then dquote else squote.

(** One byte of a bytes literal, or one ASCII character of a str, in
    [repr]: the quote and the backslash take a backslash, tab, newline and
    carriage return their letter, and what is not printable ASCII is written
    \xNN. *)
Definition repr_char (quote c : ascii) : string :=
  let n := nat_of_ascii c in
  if Ascii.eqb c quote || Ascii.eqb c backslash then String backslash (String c "")
  else if Nat.eqb n 9 then String backslash "t"
  else if Nat.eqb n 10 then String backslash "n"
  else if Nat.eqb n 13 then String backslash "r"
  else if Nat.ltb n 32 || Nat.leb 127 n
       then String backslash (String "x" (hex2 n))
  else String c "".

Fixpoint repr_body (quote : ascii) (s : string) : string :=
  match s with
  | EmptyString => ""
  | String c s' => repr_char quote c ++ repr_body quote s'
  end.

Definition repr_bytes (s : string) : string :=
  let q := repr_quote s in
  String "b" (String q (repr_body q s ++ String q "")).

(** The code points from 128 on that [str.isprintable] rejects and [repr]
    therefore escapes: the controls, formats, separators other than the
    space, surrogates, private use and unassigned code points of the Unicode
    database (14.0, the one of CPython 3.11). *)
Definition nonprintable_ranges : list (N * N) :=
  [(128, 160); (173, 173); (888, 889); (896, 899); (907, 907); (909, 909);
   (930, 930); (1328, 1328); (1367, 1368); (1419, 1420); (1424, 1424);
   (1480, 1487); (1515, 1518); (1525, 1541); (1564, 1564); (1757, 1757);
   (1806, 1807); (1867, 1868); (1970, 1983); (2043, 2044); (2094, 2095);
   (2111, 2111); (2140, 2141); (2143, 2143); (2155, 2159); (2191, 2199);
   (2274, 2274); (2436, 2436); (2445, 2446); (2449, 2450); (2473, 2473);
   (2481, 2481); (2483, 2485); (2490, 2491); (2501, 2502); (2505, 2506);
   (2511, 2518); (2520, 2523); (2526, 2526); (2532, 2533); (2559, 2560);
   (2564, 2564); (2571, 2574); (2577, 2578); (2601, 2601); (2609, 2609);
   (2612, 2612); (2615, 2615); (2618, 2619); (2621, 2621); (2627, 2630);
   (2633, 2634); (2638, 2640); (2642, 2648); (2653, 2653); (2655, 2661);
   (2679, 2688); (2692, 2692); (2702, 2702); (2706, 2706); (2729, 2729);
   (2737, 2737); (2740, 2740); (2746, 2747); (2758, 2758); (2762, 2762);
   (2766, 2767); (2769, 2783); (2788, 2789); (2802, 2808); (2816, 2816);
   (2820, 2820); (2829, 2830); (2833, 2834); (2857, 2857); (2865, 2865);
   (2868, 2868); (2874, 2875); (2885, 2886); (2889, 2890); (2894, 2900);
   (2904, 2907); (2910, 2910); (2916, 2917); (2936, 2945); (2948, 2948);
   (2955, 2957); (2961, 2961); (2966, 2968); (2971, 2971); (2973, 2973);
   (2976, 2978); (2981, 2983); (2987, 2989); (3002, 3005); (3011, 3013);
   (3017, 3017); (3022, 3023); (3025, 3030); (3032, 3045); (3067, 3071);
   (3085, 3085); (3089, 3089); (3113, 3113); (3130, 3131); (3141, 3141);
   (3145, 3145); (3150, 3156); (3159, 3159); (3163, 3164); (3166, 3167);
   (3172, 3173); (3184, 3190); (3213, 3213); (3217, 3217); (3241, 3241);
   (3252, 3252); (3258, 3259); (3269, 3269); (3273, 3273); (3278, 3284);
   (3287, 3292); (3295, 3295); (3300, 3301); (3312, 3312); (3315, 3327);
   (3341, 3341); (3345, 3345); (3397, 3397); (3401, 3401); (3408, 3411);
   (3428, 3429); (3456, 3456); (3460, 3460); (3479, 3481); (3506, 3506);
   (3516, 3516); (3518, 3519); (3527, 3529); (3531, 3534); (3541, 3541);
   (3543, 3543); (3552, 3557); (3568, 3569); (3573, 3584); (3643, 3646);
   (3676, 3712); (3715, 3715); (3717, 3717); (3723, 3723); (3748, 3748);
   (3750, 3750); (3774, 3775); (3781, 3781); (3783, 3783); (3790, 3791);
   (3802, 3803); (3808, 3839); (3912, 3912); (3949, 3952); (3992, 3992);
   (4029, 4029); (4045, 4045); (4059, 4095); (4294, 4294); (4296, 4300);
   (4302, 4303); (4681, 4681); (4686, 4687); (4695, 4695); (4697, 4697);
   (4702, 4703); (4745, 4745); (4750, 4751); (4785, 4785); (4790, 4791);
   (4799, 4799); (4801, 4801); (4806, 4807); (4823, 4823); (4881, 4881);
   (4886, 4887); (4955, 4956); (4989, 4991); (5018, 5023); (5110, 5111);
   (5118, 5119); (5760, 5760); (5789, 5791); (5881, 5887); (5910, 5918);
   (5943, 5951); (5972, 5983); (5997, 5997); (6001, 6001); (6004, 6015);
   (6110, 6111); (6122, 6127); (6138, 6143); (6158, 6158); (6170, 6175);
   (6265, 6271); (6315, 6319); (6390, 6399); (6431, 6431); (6444, 6447);
   (6460, 6463); (6465, 6467); (6510, 6511); (6517, 6527); (6572, 6575);
   (6602, 6607); (6619, 6621); (6684, 6685); (6751, 6751); (6781, 6782);
   (6794, 6799); (6810, 6815); (6830, 6831); (6863, 6911); (6989, 6991);
   (7039, 7039); (7156, 7163); (7224, 7226); (7242, 7244); (7305, 7311);
   (7355, 7356); (7368, 7375); (7419, 7423); (7958, 7959); (7966, 7967);
   (8006, 8007); (8014, 8015); (8024, 8024); (8026, 8026); (8028, 8028);
   (8030, 8030); (8062, 8063); (8117, 8117); (8133, 8133); (8148, 8149);
   (8156, 8156); (8176, 8177); (8181, 8181); (8191, 8207); (8232, 8239);
   (8287, 8303); (8306, 8307); (8335, 8335); (8349, 8351); (8385, 8399);
   (8433, 8447); (8588, 8591); (9255, 9279); (9291, 9311); (11124, 11125);
   (11158, 11158); (11508, 11512); (11558, 11558); (11560, 11564);
   (11566, 11567); (11624, 11630); (11633, 11646); (11671, 11679);
   (11687, 11687); (11695, 11695); (11703, 11703); (11711, 11711);
   (11719, 11719); (11727, 11727); (11735, 11735); (11743, 11743);
   (11870, 11903); (11930, 11930); (12020, 12031); (12246, 12271);
   (12284, 12288); (12352, 12352); (12439, 12440); (12544, 12548);
   (12592, 12592); (12687, 12687); (12772, 12783); (12831, 12831);
   (42125, 42127); (42183, 42191); (42540, 42559); (42744, 42751);
   (42955, 42959); (42962, 42962); (42964, 42964); (42970, 42993);
   (43053, 43055); (43066, 43071); (43128, 43135); (43206, 43213);
   (43226, 43231); (43348, 43358); (43389, 43391); (43470, 43470);
   (43482, 43485); (43519, 43519); (43575, 43583); (43598, 43599);
   (43610, 43611); (43715, 43738); (43767, 43776); (43783, 43784);
   (43791, 43792); (43799, 43807); (43815, 43815); (43823, 43823);
   (43884, 43887); (44014, 44015); (44026, 44031); (55204, 55215);
   (55239, 55242); (55292, 63743); (64110, 64111); (64218, 64255);
   (64263, 64274); (64280, 64284); (64311, 64311); (64317, 64317);
   (64319, 64319); (64322, 64322); (64325, 64325); (64451, 64466);
   (64912, 64913); (64968, 64974); (64976, 65007); (65050, 65055);
   (65107, 65107); (65127, 65127); (65132, 65135); (65141, 65141);
   (65277, 65280); (65471, 65473); (65480, 65481); (65488, 65489);
   (65496, 65497); (65501, 65503); (65511, 65511); (65519, 65531);
   (65534, 65535); (65548, 65548); (65575, 65575); (65595, 65595);
   (65598, 65598); (65614, 65615); (65630, 65663); (65787, 65791);
   (65795, 65798); (65844, 65846); (65935, 65935); (65949, 65951);
   (65953, 65999); (66046, 66175); (66205, 66207); (66257, 66271);
   (66300, 66303); (66340, 66348); (66379, 66383); (66427, 66431);
   (66462, 66462); (66500, 66503); (66518, 66559); (66718, 66719);
   (66730, 66735); (66772, 66775); (66812, 66815); (66856, 66863);
   (66916, 66926); (66939, 66939); (66955, 66955); (66963, 66963);
   (66966, 66966); (66978, 66978); (66994, 66994); (67002, 67002);
   (67005, 67071); (67383, 67391); (67414, 67423); (67432, 67455);
   (67462, 67462); (67505, 67505); (67515, 67583); (67590, 67591);
   (67593, 67593); (67638, 67638); (67641, 67643); (67645, 67646);
   (67670, 67670); (67743, 67750); (67760, 67807); (67827, 67827);
   (67830, 67834); (67868, 67870); (67898, 67902); (67904, 67967);
   (68024, 68027); (68048, 68049); (68100, 68100); (68103, 68107);
   (68116, 68116); (68120, 68120); (68150, 68151); (68155, 68158);
   (68169, 68175); (68185, 68191); (68256, 68287); (68327, 68330);
   (68343, 68351); (68406, 68408); (68438, 68439); (68467, 68471);
   (68498, 68504); (68509, 68520); (68528, 68607); (68681, 68735);
   (68787, 68799); (68851, 68857); (68904, 68911); (68922, 69215);
   (69247, 69247); (69290, 69290); (69294, 69295); (69298, 69375);
   (69416, 69423); (69466, 69487); (69514, 69551); (69580, 69599);
   (69623, 69631); (69710, 69713); (69750, 69758); (69821, 69821);
   (69827, 69839); (69865, 69871); (69882, 69887); (69941, 69941);
   (69960, 69967); (70007, 70015); (70112, 70112); (70133, 70143);
   (70162, 70162); (70207, 70271); (70279, 70279); (70281, 70281);
   (70286, 70286); (70302, 70302); (70314, 70319); (70379, 70383);
   (70394, 70399); (70404, 70404); (70413, 70414); (70417, 70418);
   (70441, 70441); (70449, 70449); (70452, 70452); (70458, 70458);
   (70469, 70470); (70473, 70474); (70478, 70479); (70481, 70486);
   (70488, 70492); (70500, 70501); (70509, 70511); (70517, 70655);
   (70748, 70748); (70754, 70783); (70856, 70863); (70874, 71039);
   (71094, 71095); (71134, 71167); (71237, 71247); (71258, 71263);
   (71277, 71295); (71354, 71359); (71370, 71423); (71451, 71452);
   (71468, 71471); (71495, 71679); (71740, 71839); (71923, 71934);
   (71943, 71944); (71946, 71947); (71956, 71956); (71959, 71959);
   (71990, 71990); (71993, 71994); (72007, 72015); (72026, 72095);
   (72104, 72105); (72152, 72153); (72165, 72191); (72264, 72271);
   (72355, 72367); (72441, 72703); (72713, 72713); (72759, 72759);
   (72774, 72783); (72813, 72815); (72848, 72849); (72872, 72872);
   (72887, 72959); (72967, 72967); (72970, 72970); (73015, 73017);
   (73019, 73019); (73022, 73022); (73032, 73039); (73050, 73055);
   (73062, 73062); (73065, 73065); (73103, 73103); (73106, 73106);
   (73113, 73119); (73130, 73439); (73465, 73647); (73649, 73663);
   (73714, 73726); (74650, 74751); (74863, 74863); (74869, 74879);
   (75076, 77711); (77811, 77823); (78895, 82943); (83527, 92159);
   (92729, 92735); (92767, 92767); (92778, 92781); (92863, 92863);
   (92874, 92879); (92910, 92911); (92918, 92927); (92998, 93007);
   (93018, 93018); (93026, 93026); (93048, 93052); (93072, 93759);
   (93851, 93951); (94027, 94030); (94088, 94094); (94112, 94175);
   (94181, 94191); (94194, 94207); (100344, 100351); (101590, 101631);
   (101641, 110575); (110580, 110580); (110588, 110588); (110591, 110591);
   (110883, 110927); (110931, 110947); (110952, 110959); (111356, 113663);
   (113771, 113775); (113789, 113791); (113801, 113807); (113818, 113819);
   (113824, 118527); (118574, 118575); (118599, 118607); (118724, 118783);
   (119030, 119039); (119079, 119080); (119155, 119162); (119275, 119295);
   (119366, 119519); (119540, 119551); (119639, 119647); (119673, 119807);
   (119893, 119893); (119965, 119965); (119968, 119969); (119971, 119972);
   (119975, 119976); (119981, 119981); (119994, 119994); (119996, 119996);
   (120004, 120004); (120070, 120070); (120075, 120076); (120085, 120085);
   (120093, 120093); (120122, 120122); (120127, 120127); (120133, 120133);
   (120135, 120137); (120145, 120145); (120486, 120487); (120780, 120781);
   (121484, 121498); (121504, 121504); (121520, 122623); (122655, 122879);
   (122887, 122887); (122905, 122906); (122914, 122914); (122917, 122917);
   (122923, 123135); (123181, 123183); (123198, 123199); (123210, 123213);
   (123216, 123535); (123567, 123583); (123642, 123646); (123648, 124895);
   (124903, 124903); (124908, 124908); (124911, 124911); (124927, 124927);
   (125125, 125126); (125143, 125183); (125260, 125263); (125274, 125277);
   (125280, 126064); (126133, 126208); (126270, 126463); (126468, 126468);
   (126496, 126496); (126499, 126499); (126501, 126502); (126504, 126504);
   (126515, 126515); (126520, 126520); (126522, 126522); (126524, 126529);
   (126531, 126534); (126536, 126536); (126538, 126538); (126540, 126540);
   (126544, 126544); (126547, 126547); (126549, 126550); (126552, 126552);
   (126554, 126554); (126556, 126556); (126558, 126558); (126560, 126560);
   (126563, 126563); (126565, 126566); (126571, 126571); (126579, 126579);
   (126584, 126584); (126589, 126589); (126591, 126591); (126602, 126602);
   (126620, 126624); (126628, 126628); (126634, 126634); (126652, 126703);
   (126706, 126975); (127020, 127023); (127124, 127135); (127151, 127152);
   (127168, 127168); (127184, 127184); (127222, 127231); (127406, 127461);
   (127491, 127503); (127548, 127551); (127561, 127567); (127570, 127583);
   (127590, 127743); (128728, 128732); (128749, 128751); (128765, 128767);
   (128884, 128895); (128985, 128991); (129004, 129007); (129009, 129023);
   (129036, 129039); (129096, 129103); (129114, 129119); (129160, 129167);
   (129198, 129199); (129202, 129279); (129620, 129631); (129646, 129647);
   (129653, 129655); (129661, 129663); (129671, 129679); (129709, 129711);
   (129723, 129727); (129734, 129743); (129754, 129759); (129768, 129775);
   (129783, 129791); (129939, 129939); (129995, 130031); (130042, 131071);
   (173792, 173823); (177977, 177983); (178206, 178207); (183970, 183983);
   (191457, 194559); (195102, 196607); (201547, 917759); (918000, 1114111)]%N.

Definition isprintable (cp : N) : bool :=
  negb (existsb (fun r => (fst r <=? cp)%N && (cp <=? snd r)%N) nonprintable_ranges).

(** [n] in lower-case hexadecimal, on [width] digits. *)
Fixpoint hexN (width : nat) (n : N) : string :=
  match width with
  | O => ""
  | S w => hexN w (n / 16)%N ++ String (hex_digit (N.to_nat (n mod 16)%N)) ""
  end.

(** The escape of a code point that is not printable: \xNN, \uNNNN or
    \UNNNNNNNN. *)
Definition escape_code_point (cp : N) : string :=
  if (cp <? 256)%N then String backslash (String "x" (hexN 2 cp))
  else if (cp <? 65536)%N then String backslash (String "u" (hexN 4 cp))
  else String backslash (String "U" (hexN 8 cp)).

(** A character above ASCII, given by its code point and its UTF-8 bytes:
    itself when printable, its escape otherwise. *)
Definition repr_code_point (cp : N) (utf8 : string) : string :=
  if isprintable cp then utf8 else escape_code_point cp.

Definition code (c : ascii) : N := N_of_ascii c.

Definition between (lo x hi : N) : bool := (lo <=? x)%N && (x <=? hi)%N.

Definition trail (c : ascii) : bool := between 128 (code c) 191.

(** The characters of a str in [repr].  A str is held as its UTF-8 bytes,
    which is also how it goes to standard output: ASCII characters are
    escaped as in a bytes literal, a well-formed sequence of two, three or
    four bytes is one character above ASCII.  A byte that starts no such
    sequence (no str has one) is written \xNN. *)
Fixpoint repr_text (quote : ascii) (s : string) : string :=
  match s with
  | EmptyString => ""
  | String c0 r0 =>
      let x0 := code c0 in
      let stray := String backslash (String "x" (hexN 2 x0)) ++ repr_text quote r0 in
      if (x0 <? 128)%N then repr_char quote c0 ++ repr_text quote r0
      else
        match r0 with
        | String c1 r1 =>
            let x1 := code c1 in
            if between 194 x0 223 && trail c1 then
              repr_code_point ((x0 - 192) * 64 + (x1 - 128))%N
                              (String c0 (String c1 ""))
              ++ repr_text quote r1
            else
              match r1 with
              | String c2 r2 =>
                  let x2 := code c2 in
                  if between 224 x0 239
                     && between (if (x0 =? 224)%N then 160 else 128) x1
                                (if (x0 =? 237)%N then 159 else 191)
                     && trail c2
                  then
                    repr_code_point
                      ((x0 - 224) * 4096 + (x1 - 128) * 64 + (x2 - 128))%N
                      (String c0 (String c1 (String c2 "")))
                    ++ repr_text quote r2
                  else
                    match r2 with
                    | String c3 r3 =>
                        let x3 := code c3 in
                        if between 240 x0 244
                           && between (if (x0 =? 240)%N then 144 else 128) x1
                                      (if (x0 =? 244)%N then 143 else 191)
                           && trail c2 && trail c3
                        then
                          repr_code_point
                            ((x0 - 240) * 262144 + (x1 - 128) * 4096
                             + (x2 - 128) * 64 + (x3 - 128))%N
                            (String c0 (String c1 (String c2 (String c3 ""))))
                          ++ repr_text quote r3
                        else stray
                    | EmptyString => stray
                    end
              | EmptyString => stray
              end
        | EmptyString => stray
        end
  end.

Definition repr_str (s : string) : string :=
  let q := repr_quote s in
  String q (repr_text q s ++ String q "").

(** [os.path.join(a, b)] of posixpath. *)
Definition os_path_join (a b : string) : string :=
  if startswith b "/" then b
  else if String.eqb a "" || endswith a "/" then a ++ b
  else a ++ "/" ++ b.

(** ** dbprint.py *)

Module DbPrint.

(** The values the sqlite3 driver hands back: NULL, INTEGER, REAL, TEXT and
    BLOB.  A REAL carries the text Python shows for the float. *)
Inductive value :=
| VNone
| VInt (n : Z)
| VReal (shown : string)
| VText (s : string)
| VBlob (b : string).

(** A fetched row is a tuple. *)
Definition row := list value.

Definition repr_value (v : value) : string :=
  match v with
  | VNone => "None"
  | VInt n => str_int n
  | VReal shown => shown
  | VText s => repr_str s
  | VBlob b => repr_bytes b
  end.

(** [str(v)], which is also what an f-string field [{v}] shows. *)
Definition str_value (v : value) : string :=
  match v with
  | VText s => s
  | _ => repr_value v
  end.

(** [repr] of a tuple: [()], [(x,)], [(x, y, ...)]. *)
Definition repr_tuple (r : row) : string :=
  match r with
  | [] => "()"
  | [v] => "(" ++ repr_value v ++ ",)"
  | _ => "(" ++ String.concat ", " (map repr_value r) ++ ")"
  end.

(** The database file as the script meets it: whether [sqlite3.connect]
    succeeds, and what each SQL text makes [cursor.execute] do, either raise
    or leave rows for [fetchall]. *)
Record database := {
  db_connect : option exn;
  db_execute : string -> outcome (list row)
}.

Inductive conn_state := NotConnected | Connected | Closed.

Record process := {
  conn : conn_state;
  pending : list row;
  stdout : string
}.

Definition initial : process :=
  {| conn := NotConnected; pending := []; stdout := "" |}.

Definition P := M process.

(** [conn = sqlite3.connect(...)] *)
Definition connect (db : database) : P unit :=
  match db_connect db with
  | Some e => raise e
  | None => modify (fun s => {| conn := Connected; pending := pending s; stdout := stdout s |})
  end.

(** [cursor = conn.cursor()]: the cursor starts with no pending rows. *)
Definition cursor : P unit :=
  modify (fun s => {| conn := conn s; pending := []; stdout := stdout s |}).

(** [cursor.execute(sql)] *)
Definition execute (db : database) (sql : string) : P unit :=
  match db_execute db sql with
  | Raised e => raise e
  | Returned rows =>
      modify (fun s => {| conn := conn s; pending := rows; stdout := stdout s |})
  end.

(** [cursor.fetchall()] *)
Definition fetchall : P (list row) :=
  fun s => (Returned (pending s), {| conn := conn s; pending := []; stdout := stdout s |}).

(** [print(text)] *)
Definition print (text : string) : P unit :=
  modify (fun s => {| conn := conn s; pending := pending s; stdout := stdout s ++ text ++ nl |}).

(** [conn.close()] *)
Definition close : P unit :=
  modify (fun s => {| conn := Closed; pending := pending s; stdout := stdout s |}).

(** [table[0]] *)
Definition item0 (t : row) : P value :=
  match t with
  | [] => raise IndexError
  | v :: _ => ret v
  end.

Definition catalog_query : string :=
  "SELECT name FROM sqlite_master WHERE type='table';".

Definition content_query (name : string) : string := "SELECT * FROM " ++ name.

(** The module body of dbprint.py, statement by statement. *)
Definition dbprint (db : database) : P unit :=
  connect db ;;
  cursor ;;
  execute db catalog_query ;;
  tables <- fetchall ;;
  print "Tables in the database:" ;;
  for_each tables (fun table =>
    name <- item0 table ;;
    print (str_value name)) ;;
  for_each tables (fun table =>
    name <- item0 table ;;
    print (nl ++ "Content of table '" ++ str_value name ++ "':") ;;
    name <- item0 table ;;
    execute db (content_query (str_value name)) ;;
    rows <- fetchall ;;
    for_each rows (fun row => print (repr_tuple row))) ;;
  close.

(** A run of the script from a fresh process. *)
Definition run (db : database) : outcome unit * process := dbprint db initial.

(** The database of the end-to-end scenario: one table [users] with the
    rows (1, "alice") and (2, "bob"). *)
Definition users_db : database :=
  {| db_connect := None;
     db_execute := fun sql =>
       if String.eqb sql catalog_query then Returned [[VText "users"]]
       else if String.eqb sql "SELECT * FROM users" then
         Returned [[VInt 1; VText "alice"]; [VInt 2; VText "bob"]]
       else Raised (SqliteError "no such table") |}.

(** *** The listing the specification describes *)

(** The section of one table: a blank line, the header, one line per row,
    each row shown as a tuple. *)
Definition spec_section (t : string * list row) : list string :=
  "" :: ("Content of table '" ++ fst t ++ "':") :: map repr_tuple (snd t).

(** The whole listing, for the tables in catalogue order, each with its
    rows in scan order. *)
Definition spec_listing (tables : list (string * list row)) : list string :=
  "Tables in the database:" :: (map fst tables ++ flat_map spec_section tables)%list.

(** [db] holds exactly [tables]: the connection opens, the catalogue query
    returns one row per table, whose first column shows as the table's name,
    and the full scan of each table returns its rows. *)
Definition holds_tables (db : database) (tables : list (string * list row)) : Prop :=
  db_connect db = None /\
  exists catalog,
    db_execute db catalog_query = Returned catalog /\
    Forall2 (fun (r : row) t =>
               (exists v rest, r = v :: rest /\ str_value v = fst t) /\
               db_execute db (content_query (fst t)) = Returned (snd t))
            catalog tables.

(** The claim that the connection a run has acquired is released when the
    run ends, whatever the exit path. *)
Definition connection_released (db : database) : Prop :=
  conn (snd (run db)) <> Connected.

(** A database with no table. *)
Definition empty_db : database :=
  {| db_connect := None;
     db_execute := fun sql =>
       if String.eqb sql catalog_query then Returned []
       else Raised (SqliteError "no such table") |}.

(** A database whose table [order] cannot be scanned by the interpolated
    query text, and one whose catalogue cannot be read. *)
Definition order_db : database :=
  {| db_connect := None;
     db_execute := fun sql =>
       if String.eqb sql catalog_query then Returned [[VText "order"]]
       else Raised (SqliteError "near order: syntax error") |}.

Definition malformed_db : database :=
  {| db_connect := None;
     db_execute := fun _ => Raised (SqliteError "file is not a database") |}.

(** A computation that leaves the connection as it found it, whether it
    returns or raises. *)
Definition keeps_conn {A} (c : P A) : Prop :=
  forall s, conn (snd (c s)) = conn s.

(** A computation that closes the connection when it returns and leaves it
    as it found it when it raises. *)
Definition closes_at_end (c : P unit) : Prop :=
  forall s, match c s with
            | (Returned _, s') => conn s' = Closed
            | (Raised _, s') => conn s' = conn s
            end.

(** The process after [text] has gone to standard output. *)
Definition shown (s : process) (text : string) : process :=
  {| conn := conn s; pending := pending s; stdout := stdout s ++ text |}.

(** *** Runs that fail, and what a run reads *)

(** The first column of a catalogue row shows as [name]. *)
Definition first_column (r : row) (name : string) : Prop :=
  exists v rest, r = v :: rest /\ str_value v = name.

(** The catalogue row [r] lists the table [t], and the scan of [t]
    answers with its rows. *)
Definition listed_in (db : database) (r : row) (t : string * list row) : Prop :=
  first_column r (fst t) /\
  db_execute db (content_query (fst t)) = Returned (snd t).

(** Two database files that answer alike to the queries of a run on the
    first: the connection, the catalogue query and the scan of every table
    the catalogue lists. *)
Definition agree_on_listed (db1 db2 : database) : Prop :=
  db_connect db1 = db_connect db2 /\
  db_execute db1 catalog_query = db_execute db2 catalog_query /\
  forall catalog v rest,
    db_execute db1 catalog_query = Returned catalog ->
    In (v :: rest) catalog ->
    db_execute db1 (content_query (str_value v))
    = db_execute db2 (content_query (str_value v)).

(** A database with the tables [users], [order] and [logs], in which the
    scan of [order] fails on the keyword. *)
Definition users_order_db : database :=
  {| db_connect := None;
     db_execute := fun sql =>
       if String.eqb sql catalog_query then
         Returned [[VText "users"]; [VText "order"]; [VText "logs"]]
       else if String.eqb sql "SELECT * FROM users" then
         Returned [[VInt 1; VText "alice"]; [VInt 2; VText "bob"]]
       else if String.eqb sql "SELECT * FROM logs" then
         Returned [[VInt 7; VNone]]
       else Raised (SqliteError "near order: syntax error") |}.

(** The scenario database beside a view that the dump cannot see. *)
Definition users_db_with_view : database :=
  {| db_connect := None;
     db_execute := fun sql =>
       if String.eqb sql "SELECT * FROM recent_users" then
         Returned [[VInt 2; VText "bob"]]
       else db_execute users_db sql |}.

(** A file that is not where the script looks for it. *)
Definition missing_db : database :=
  {| db_connect := Some (SqliteError "unable to open database file");
     db_execute := fun _ => Raised (SqliteError "unable to open database file") |}.

(** *** The claim on the listing *)










End DbPrint.

(** ** linecount.py *)

Module LineCount.

(** What [open(path, 'r', encoding='utf-8')] finds at a path: a file that
    cannot be opened (permission denied, broken symlink, ...) or the bytes
    of the file. *)
Inductive file_state :=
| CannotOpen (errno : os_error)
| Content (bytes : list byte).

(** The directory tree as [os.walk] enumerates it.  [File] is any entry
    that is not a directory; [Unwalked] is an entry listed among the
    directories that [os.walk] does not enter or cannot list (a symlink to a
    directory, a directory without read permission: [onerror] is None).
    The entries of a [Dir] are in the order [scandir] returns them. *)
#[local] Unset Elimination Schemes.
Inductive node :=
| File (name : string) (st : file_state)
| Dir (name : string) (entries : list node)
| Unwalked (name : string).
#[local] Set Elimination Schemes.

Definition node_name (n : node) : string :=
  match n with
  | File name _ => name
  | Dir name _ => name
  | Unwalked name => name
  end.

Definition is_dir (n : node) : bool :=
  match n with
  | File _ _ => false
  | _ => true
  end.

(** A name in the [files] list of a walk step, with what opening it finds. *)
Definition dirent : Type := string * file_state.

Definition dirnames (entries : list node) : list string :=
  map node_name (filter is_dir entries).

Definition nondirs (entries : list node) : list dirent :=
  flat_map (fun e => match e with File name st => [(name, st)] | _ => [] end) entries.

(** [os.walk(top)], top-down: the triple of the directory itself, then the
    walks of its subdirectories in listing order.  A [top] that is not a
    directory that can be listed yields nothing. *)
Fixpoint walk (top : string) (n : node) : list (string * list string * list dirent) :=
  match n with
  | Dir _ entries =>
      (top, dirnames entries, nondirs entries)
        :: flat_map (fun e =>
             if is_dir e then walk (os_path_join top (node_name e)) e else [])
           entries
  | _ => []
  end.

(** *** Text files: UTF-8 decoding and universal newlines *)

Definition in_range (lo x hi : N) : bool := (lo <=? x)%N && (x <=? hi)%N.

Definition continuation (x : N) : bool := in_range 128 x 191.

(** The strict UTF-8 decoder: the code points of the text, or None where
    Python raises UnicodeDecodeError (a stray or missing continuation byte,
    an overlong form, a surrogate, a code point above U+10FFFF). *)
Fixpoint utf8_decode (bs : list byte) : option (list N) :=
  match bs with
  | [] => Some []
  | b0 :: r0 =>
      let x0 := Byte.to_N b0 in
      if (x0 <? 128)%N then option_map (cons x0) (utf8_decode r0)
      else if in_range 194 x0 223 then
        match r0 with
        | b1 :: r1 =>
            let x1 := Byte.to_N b1 in
            if continuation x1
            then option_map (cons ((x0 - 192) * 64 + (x1 - 128))%N) (utf8_decode r1)
            else None
        | _ => None
        end
      else if in_range 224 x0 239 then
        match r0 with
        | b1 :: b2 :: r2 =>
            let x1 := Byte.to_N b1 in
            let x2 := Byte.to_N b2 in
            if in_range (if (x0 =? 224)%N then 160 else 128) x1
                        (if (x0 =? 237)%N then 159 else 191)
               && continuation x2
            then option_map
                   (cons ((x0 - 224) * 4096 + (x1 - 128) * 64 + (x2 - 128))%N)
                   (utf8_decode r2)
            else None
        | _ => None
        end
      else if in_range 240 x0 244 then
        match r0 with
        | b1 :: b2 :: b3 :: r3 =>
            let x1 := Byte.to_N b1 in
            let x2 := Byte.to_N b2 in
            let x3 := Byte.to_N b3 in
            if in_range (if (x0 =? 240)%N then 144 else 128) x1
                        (if (x0 =? 244)%N then 143 else 191)
               && continuation x2 && continuation x3
            then option_map
                   (cons ((x0 - 240) * 262144 + (x1 - 128) * 4096
                          + (x2 - 128) * 64 + (x3 - 128))%N)
                   (utf8_decode r3)
            else None
        | _ => None
        end
      else None
  end.

Definition LF : N := 10.
Definition CR : N := 13.

(** Universal newlines ([newline=None]): "\r\n" and a lone "\r" are read
    as "\n". *)
Fixpoint translate_newlines (text : list N) : list N :=
  match text with
  | [] => []
  | c :: r =>
      if (c =? CR)%N then
        LF :: match r with
              | d :: r' => if (d =? LF)%N then translate_newlines r'
                           else translate_newlines r
              | [] => []
              end
      else c :: translate_newlines r
  end.

(** Cutting the translated text after every "\n"; [cur] is the line being
    read.  Text left after the last "\n" is a line of its own. *)
Fixpoint split_keepends (cur text : list N) : list (list N) :=
  match text with
  | [] => match cur with [] => [] | _ => [cur] end
  | c :: r =>
      if (c =? LF)%N then (cur ++ [c])%list :: split_keepends [] r
      else split_keepends (cur ++ [c])%list r
  end.

(** [f.readlines()] on the decoded text. *)
Definition readlines (text : list N) : list (list N) :=
  split_keepends [] (translate_newlines text).

(** *** The process *)

Record process := {
  total_lines : Z;
  go_files_count : Z;
  opened : list string;
  stdout : string
}.

Definition initial : process :=
  {| total_lines := 0; go_files_count := 0; opened := []; stdout := "" |}.

Definition P := M process.

Definition set_total_lines (f : Z -> Z) : P unit :=
  modify (fun s => {| total_lines := f (total_lines s);
                      go_files_count := go_files_count s;
                      opened := opened s; stdout := stdout s |}).

Definition set_go_files_count (f : Z -> Z) : P unit :=
  modify (fun s => {| total_lines := total_lines s;
                      go_files_count := f (go_files_count s);
                      opened := opened s; stdout := stdout s |}).

(** [open(file_path, 'r', encoding='utf-8')]: the path is recorded in
    [opened]; the handle is the bytes of the file. *)
Definition open_file (file_path : string) (st : file_state) : P (list byte) :=
  modify (fun s => {| total_lines := total_lines s;
                      go_files_count := go_files_count s;
                      opened := (opened s ++ [file_path])%list; stdout := stdout s |}) ;;
  match st with
  | CannotOpen errno => raise (OSError errno file_path)
  | Content bytes => ret bytes
  end.

(** [f.readlines()] on an open handle. *)
Definition f_readlines (f : list byte) : P (list (list N)) :=
  match utf8_decode f with
  | None => raise UnicodeDecodeError
  | Some text => ret (readlines text)
  end.

Definition len {A} (l : list A) : Z := Z.of_nat (length l).

Definition print (text : string) : P unit :=
  modify (fun s => {| total_lines := total_lines s;
                      go_files_count := go_files_count s;
                      opened := opened s; stdout := stdout s ++ text ++ nl |}).

(** The body of the inner loop, for one [file] of the directory [root]. *)
Definition visit (root : string) (file : dirent) : P unit :=
  if endswith (fst file) ".go" then
    set_go_files_count (fun n => n + 1)%Z ;;
    let file_path := os_path_join root (fst file) in
    f <- open_file file_path (snd file) ;;
    lines <- f_readlines f ;;
    set_total_lines (fun n => n + len lines)%Z
  else ret tt.

Definition count_go_lines (directory : string) (fs : node) : P (Z * Z) :=
  set_total_lines (fun _ => 0%Z) ;;
  set_go_files_count (fun _ => 0%Z) ;;
  for_each (walk directory fs) (fun step =>
    let '(root, _, files) := step in
    for_each files (fun file => visit root file)) ;;
  c <- gets go_files_count ;;
  t <- gets total_lines ;;
  ret (c, t).

(** The [__main__] block. *)
Definition main (fs : node) : P unit :=
  r <- count_go_lines "." fs ;;
  print ("Total Go files: " ++ str_int (fst r)) ;;
  print ("Total lines of Go code: " ++ str_int (snd r)).

Definition run (fs : node) : outcome unit * process := main fs initial.

(** *** The traversal as a sequence of per-file steps *)

(** The files of a walk in the order the nested loops reach them, each with
    the [root] of its directory. *)
Definition walk_files (directory : string) (fs : node) : list (string * dirent) :=
  flat_map (fun step => let '(root, _, files) := step in map (pair root) files)
           (walk directory fs).

(** The states a loop goes through: the state before the first step and the
    state after each step, up to the step that raises. *)
Fixpoint trace {S A} (body : A -> M S unit) (l : list A) (s : S) : list S :=
  s :: match l with
       | [] => []
       | x :: l' =>
           match body x s with
           | (Returned _, s') => trace body l' s'
           | (Raised _, s') => [s']
           end
       end.

Definition counters (s : process) : Z * Z := (go_files_count s, total_lines s).

Definition counters_le (s s' : process) : Prop :=
  (go_files_count s <= go_files_count s')%Z /\ (total_lines s <= total_lines s')%Z.

(** The state at the head of the loops of [count_go_lines]. *)
Definition reset (s : process) : process :=
  {| total_lines := 0; go_files_count := 0; opened := opened s; stdout := stdout s |}.

(** *** The files of a tree *)

(** The non-directory entries below a directory, at any depth. *)
Fixpoint files_under (n : node) : list dirent :=
  match n with
  | Dir _ entries => (nondirs entries ++ flat_map files_under entries)%list
  | _ => []
  end.

Definition is_go (f : dirent) : bool := endswith (fst f) ".go".

(** Whether reading the file to its end succeeds. *)
Definition readable (st : file_state) : bool :=
  match st with
  | CannotOpen _ => false
  | Content bytes => match utf8_decode bytes with Some _ => true | None => false end
  end.

(** *** The line-splitting rule of the specification *)

Definition is_terminator (c : N) : bool := (c =? LF)%N || (c =? CR)%N.

(** The number of line-terminator sequences: "\r\n" is one. *)
Fixpoint terminators (text : list N) : nat :=
  match text with
  | [] => 0
  | c :: r =>
      if (c =? CR)%N then
        S (match r with
           | d :: r' => if (d =? LF)%N then terminators r' else terminators r
           | [] => 0
           end)
      else if (c =? LF)%N then S (terminators r)
      else terminators r
  end.

(** Whether the text ends in a line without terminator. *)
Fixpoint unterminated_tail (text : list N) : bool :=
  match text with
  | [] => false
  | [c] => negb (is_terminator c)
  | _ :: r => unterminated_tail r
  end.

(** The number of lines of a text: one per terminator sequence, and one
    more for a final line that is not terminated. *)
Definition spec_line_count (text : list N) : nat :=
  terminators text + (if unterminated_tail text then 1 else 0).

(** The lines of a file, when it can be read. *)
Definition file_lines (st : file_state) : nat :=
  match st with
  | CannotOpen _ => 0
  | Content bytes =>
      match utf8_decode bytes with
      | Some text => spec_line_count text
      | None => 0
      end
  end.

Definition go_count (files : list dirent) : Z :=
  Z.of_nat (length (filter is_go files)).

Definition go_lines (files : list dirent) : Z :=
  Z.of_nat (list_sum (map (fun f => file_lines (snd f)) (filter is_go files))).

(** *** The end-to-end scenario *)

Definition text_bytes (lines : list string) (last_line : string) : list byte :=
  list_byte_of_string (unlines lines ++ last_line).

(** a.go: three lines, the last one not terminated. *)
Definition a_go : file_state :=
  Content (text_bytes ["package a"; "func A() {"] "}").

(** b.go: five lines. *)
Definition b_go : file_state :=
  Content (text_bytes ["package b"; ""; "func B() int {"; "  return 1"; "}"] "").

(** c.txt: a hundred lines. *)
Definition c_txt : file_state :=
  Content (text_bytes (repeat "note" 100) "").

Definition flat_tree : node :=
  Dir "" [File "a.go" a_go; File "b.go" b_go; File "c.txt" c_txt].

Definition nested_tree : node :=
  Dir "" [Dir "cmd" [Dir "tool" [File "b.go" b_go]; File "c.txt" c_txt];
          Unwalked "vendor";
          File "a.go" a_go].

(** *** States of a traversal *)

(** One per-file step of the traversal. *)
Definition visit_step (rf : string * dirent) : P unit := visit (fst rf) (snd rf).

(** The path [visit] opens for a file of a walk. *)
Definition path_of (rf : string * dirent) : string :=
  os_path_join (fst rf) (fst (snd rf)).

(** The state reached from [s] once the files [fl] of a walk have all been
    visited without failure. *)
Definition advance (s : process) (fl : list (string * dirent)) : process :=
  {| total_lines := total_lines s + go_lines (map snd fl);
     go_files_count := go_files_count s + go_count (map snd fl);
     opened := (opened s ++ map path_of (filter (fun rf => is_go (snd rf)) fl))%list;
     stdout := stdout s |}.

(** A tree without any file that matches, and trees with a directory whose
    name ends in ".go". *)
Definition notes_tree : node :=
  Dir "" [File "c.txt" c_txt; Dir "docs" [File "README.md" a_go]; Dir "empty" []].

Definition go_named_dir_tree : node :=
  Dir "" [Dir "pkg.go" [File "notes.txt" c_txt]].

Definition go_named_dir_with_go_file : node :=
  Dir "" [Dir "pkg.go" [File "m.go" a_go]].

(** A tree whose second ".go" file cannot be opened. *)
Definition locked_tree : node :=
  Dir "" [File "a.go" a_go; Dir "cmd" [File "b.go" (CannotOpen EACCES)]].

(** *** Failing reads, raw bytes and paths *)

(** The exception that reading the file at [file_path] to its end raises
    when the file cannot be read. *)
Definition read_error (file_path : string) (st : file_state) : exn :=
  match st with
  | CannotOpen errno => OSError errno file_path
  | Content _ => UnicodeDecodeError
  end.

(** The bytes of a file taken as characters, one per byte. *)
Definition raw_text (bytes : list byte) : list N := map Byte.to_N bytes.

(** The text with every "\n" written as "\r\n". *)
Definition to_crlf (text : list N) : list N :=
  flat_map (fun c => if (c =? LF)%N then [CR; LF] else [c]) text.

(** The terminator count as a scan that remembers whether the character
    before was "\r". *)
Fixpoint terminators_after (after_cr : bool) (text : list N) : nat :=
  match text with
  | [] => 0
  | c :: r =>
      if (c =? CR)%N then S (terminators_after true r)
      else if (c =? LF)%N
           then (if after_cr then 0 else 1) + terminators_after false r
      else terminators_after false r
  end.

(** [unterminated_tail], with [d] for the empty text. *)
Definition unterminated_or (d : bool) (text : list N) : bool :=
  match text with
  | [] => d
  | _ => unterminated_tail text
  end.

(** No entry of the tree has a name that starts with "/" (as the names
    that [scandir] returns never do). *)
Fixpoint relative_names (n : node) : bool :=
  negb (startswith (node_name n) "/")
  && match n with
     | Dir _ entries => forallb relative_names entries
     | _ => true
     end.

(** What a traversal may do to the process: standard output is left as it
    was, and the paths it has opened all end in ".go" and are as many as the
    files it has counted. *)
Definition traversed (s s' : process) : Prop :=
  stdout s' = stdout s /\
  exists new,
    opened s' = (opened s ++ new)%list /\
    Forall (fun p => endswith p ".go" = true) new /\
    go_files_count s' = (go_files_count s + Z.of_nat (length new))%Z.

End LineCount.


(** * Properties of the scripts *)

(** ** Strings and loops *)

Lemma append_assoc (a b c : string) : (a ++ b) ++ c = a ++ (b ++ c).
Proof.
  induction a as [|x a IH]; simpl; [reflexivity|]. now rewrite IH.
Qed.

Lemma append_empty_r (a : string) : a ++ "" = a.
Proof.
  induction a as [|x a IH]; simpl; [reflexivity|]. now rewrite IH.
Qed.

Lemma unlines_app (l1 l2 : list string) :
  unlines (l1 ++ l2) = unlines l1 ++ unlines l2.
Proof.
  induction l1 as [|x l1 IH]; simpl; [reflexivity|].
  now rewrite IH, !append_assoc.
Qed.

(** Equal texts, up to the bracketing of [++] and literal prefixes. *)
Ltac text_eq :=
  repeat first [rewrite !append_assoc | progress cbn [append nl]];
  try reflexivity.

Section Loops.
Context {S A : Type}.
Implicit Types (body : A -> M S unit) (l : list A) (s : S).

Lemma for_each_app body l1 l2 s :
  for_each (l1 ++ l2) body s = (for_each l1 body ;; for_each l2 body) s.
Proof.
  revert s. induction l1 as [|x l1 IH]; intros s; simpl.
  - reflexivity.
  - unfold bind in *. destruct (body x s) as [[[]|e] s1]; [|reflexivity].
    apply IH.
Qed.

(** A loop whose bodies respect a preorder on states respects it. *)
Lemma for_each_preserves (R : S -> S -> Prop) body l :
  (forall s, R s s) ->
  (forall s1 s2 s3, R s1 s2 -> R s2 s3 -> R s1 s3) ->
  (forall x s, In x l -> R s (snd (body x s))) ->
  forall s, R s (snd (for_each l body s)).
Proof.
  intros Hrefl Htrans. induction l as [|x l IH]; intros Hb s; simpl.
  - apply Hrefl.
  - unfold bind. specialize (Hb x s (or_introl eq_refl)) as Hx.
    destruct (body x s) as [[[]|e] s1]; simpl in *; [|exact Hx].
    eapply Htrans; [exact Hx|]. apply IH. intros y s' Hy. apply Hb. now right.
Qed.

(** Two loops over the same list with bodies that agree are the same. *)
Lemma for_each_ext body1 body2 l :
  (forall x s, In x l -> body1 x s = body2 x s) ->
  forall s, for_each l body1 s = for_each l body2 s.
Proof.
  induction l as [|x l IH]; intros Hb s; simpl; [reflexivity|].
  unfold bind. rewrite (Hb x s (or_introl eq_refl)).
  destruct (body2 x s) as [[[]|e] s1]; [|reflexivity].
  apply IH. intros y s' Hy. apply Hb. now right.
Qed.

Lemma bind_ext {B C} (c1 c2 : M S B) (k1 k2 : B -> M S C) :
  (forall s, c1 s = c2 s) ->
  (forall b s, k1 b s = k2 b s) ->
  forall s, bind c1 k1 s = bind c2 k2 s.
Proof.
  intros Hc Hk s. unfold bind. rewrite Hc.
  destruct (c2 s) as [[b|e] s1]; [apply Hk|reflexivity].
Qed.

Lemma for_each_flat_map {B} (g : B -> list A) body (l : list B) s :
  for_each (flat_map g l) body s = for_each l (fun x => for_each (g x) body) s.
Proof.
  revert s. induction l as [|x l IH]; intros s; simpl; [reflexivity|].
  rewrite for_each_app. apply bind_ext; auto.
Qed.

Lemma for_each_map {B} (f : B -> A) body (l : list B) s :
  for_each (map f l) body s = for_each l (fun x => body (f x)) s.
Proof.
  revert s. induction l as [|x l IH]; intros s; simpl; [reflexivity|].
  apply bind_ext; auto.
Qed.
End Loops.

(** ** dbprint.py *)

Module DbPrintFacts.
Import DbPrint.

Lemma keeps_conn_bind {A B} (c : P A) (k : A -> P B) :
  keeps_conn c -> (forall a, keeps_conn (k a)) -> keeps_conn (bind c k).
Proof.
  intros Hc Hk s. unfold bind. specialize (Hc s).
  destruct (c s) as [[a|e] s1]; simpl in *; [|exact Hc].
  now rewrite Hk.
Qed.

Lemma keeps_conn_for_each {A} (l : list A) (body : A -> P unit) :
  (forall x, keeps_conn (body x)) -> keeps_conn (for_each l body).
Proof.
  intros Hb s.
  apply (for_each_preserves (fun s s' => conn s' = conn s));
    [congruence | congruence | intros x s' _; apply Hb].
Qed.

Lemma keeps_conn_execute db sql : keeps_conn (execute db sql).
Proof. intros s. unfold execute. now destruct (db_execute db sql). Qed.

Lemma keeps_conn_cursor : keeps_conn cursor.
Proof. intros s. reflexivity. Qed.

Lemma keeps_conn_fetchall : keeps_conn fetchall.
Proof. intros s. reflexivity. Qed.

Lemma keeps_conn_print text : keeps_conn (print text).
Proof. intros s. reflexivity. Qed.

Lemma keeps_conn_item0 t : keeps_conn (item0 t).
Proof. intros s. now destruct t. Qed.

Create HintDb conn.
#[local] Hint Resolve keeps_conn_bind keeps_conn_for_each keeps_conn_cursor keeps_conn_execute
  keeps_conn_fetchall keeps_conn_print keeps_conn_item0 : conn.

Lemma closes_at_end_bind {A} (c : P A) (k : A -> P unit) :
  keeps_conn c -> (forall a, closes_at_end (k a)) -> closes_at_end (bind c k).
Proof.
  intros Hc Hk s. unfold bind. specialize (Hc s).
  destruct (c s) as [[a|e] s1]; simpl in *; [|exact Hc].
  specialize (Hk a s1). destruct (k a s1) as [[[]|e] s2]; congruence.
Qed.

Lemma closes_at_end_close : closes_at_end close.
Proof. intros s. reflexivity. Qed.

(** Everything between [connect] and the end of the script. *)
Lemma after_connect_closes_at_end db :
  closes_at_end
    (cursor ;;
     execute db catalog_query ;;
     tables <- fetchall ;;
     print "Tables in the database:" ;;
     for_each tables (fun table =>
       name <- item0 table ;;
       print (str_value name)) ;;
     for_each tables (fun table =>
       name <- item0 table ;;
       print (nl ++ "Content of table '" ++ str_value name ++ "':") ;;
       name <- item0 table ;;
       execute db (content_query (str_value name)) ;;
       rows <- fetchall ;;
       for_each rows (fun row => print (repr_tuple row))) ;;
     close).
Proof.
  repeat (apply closes_at_end_bind; [auto 10 with conn|intros]).
  apply closes_at_end_close.
Qed.

(** C1, as stated, fails: when the scan of a table raises, the run ends
    with the connection still open; so it does when the catalogue query
    raises. *)
Lemma connection_left_open :
  ~ connection_released order_db /\ ~ connection_released malformed_db.
Proof.
  split; intros H; apply H; reflexivity.
Qed.

(** C1, amended: a run that completes has closed the connection; a run
    that raises after [connect] ends with the connection still open, the
    close call being the last statement of the script and not reached. *)
Theorem connection_closed_iff_completed (db : database) :
  match run db with
  | (Returned _, s) => conn s = Closed
  | (Raised _, s) =>
      conn s = match db_connect db with
               | None => Connected
               | Some _ => NotConnected
               end
  end.
Proof.
  unfold run, dbprint, bind at 1, connect.
  destruct (db_connect db) as [e|]; [reflexivity|].
  unfold modify. pose proof (after_connect_closes_at_end db) as H.
  match goal with |- context [?c ?s] =>
    match type of H with closes_at_end ?c' => unify c c'; specialize (H s) end end.
  simpl in H. exact H.
Qed.

(** *** What a run prints *)

Lemma shown_empty s : shown s "" = s.
Proof. destruct s as [c p o]. unfold shown; simpl. now rewrite append_empty_r. Qed.

Lemma shown_shown s a b : shown (shown s a) b = shown s (a ++ b).
Proof. unfold shown; simpl. now rewrite append_assoc. Qed.

Lemma rows_loop (rows : list row) s :
  for_each rows (fun row => print (repr_tuple row)) s
  = (Returned tt, shown s (unlines (map repr_tuple rows))).
Proof.
  revert s. induction rows as [|r rows IH]; intros s; simpl.
  - now rewrite shown_empty.
  - unfold bind, print at 1, modify. rewrite IH. f_equal.
    unfold shown; simpl. now rewrite !append_assoc.
Qed.

Section Listing.
Variable db : database.

Let listed (r : row) (t : string * list row) : Prop :=
  (exists v rest, r = v :: rest /\ str_value v = fst t) /\
  db_execute db (content_query (fst t)) = Returned (snd t).

Lemma names_loop catalog tables :
  Forall2 listed catalog tables ->
  forall s,
    for_each catalog (fun table =>
      name <- item0 table ;;
      print (str_value name)) s
    = (Returned tt, shown s (unlines (map fst tables))).
Proof.
  induction 1 as [|r t catalog tables [(v & rest & -> & Hv) _] _ IH];
    intros s; simpl.
  - now rewrite shown_empty.
  - unfold bind at 1 2, ret, print at 1, modify. rewrite IH, Hv. f_equal.
    unfold shown; simpl. now rewrite !append_assoc.
Qed.

Lemma sections_loop catalog tables :
  Forall2 listed catalog tables ->
  forall s, pending s = [] ->
    for_each catalog (fun table =>
      name <- item0 table ;;
      print (nl ++ "Content of table '" ++ str_value name ++ "':") ;;
      name <- item0 table ;;
      execute db (content_query (str_value name)) ;;
      rows <- fetchall ;;
      for_each rows (fun row => print (repr_tuple row))) s
    = (Returned tt, shown s (unlines (flat_map spec_section tables))).
Proof.
  induction 1 as [|r t catalog tables [(v & rest & -> & Hv) Hq] _ IH];
    intros s Hs; simpl.
  - now rewrite shown_empty.
  - unfold bind at 1 2 3 4 5 6, item0, ret, print at 1, modify, execute, fetchall.
    rewrite Hv, Hq. unfold modify. cbn [pending conn stdout].
    rewrite rows_loop. rewrite IH by reflexivity. f_equal.
    rewrite unlines_app. destruct s as [c p o]; simpl in Hs; subst p.
    unfold shown; cbn [pending conn stdout]. f_equal.
    cbn [unlines spec_section map]. now text_eq.
Qed.
End Listing.

Lemma run_holds_tables db tables :
  holds_tables db tables ->
  run db = (Returned tt,
            {| conn := Closed; pending := [];
               stdout := unlines (spec_listing tables) |}).
Proof.
  intros (Hc & catalog & Hq & Hall).
  unfold run, dbprint, bind at 1 2 3 4 5, connect, cursor, execute, fetchall,
    print at 1.
  rewrite Hc, Hq. unfold modify. cbn [pending conn stdout initial].
  unfold bind. rewrite (names_loop db catalog tables Hall).
  rewrite (sections_loop db catalog tables Hall) by reflexivity.
  unfold close, modify, shown. cbn [pending conn stdout]. f_equal. f_equal.
  unfold spec_listing. cbn [unlines]. rewrite unlines_app.
  rewrite !append_assoc. reflexivity.
Qed.


(** *** Rows as tuples of field values *)













(** C3: on a database whose catalogue lists no table, a run prints the
    line "Tables in the database:" and nothing else. *)
Theorem no_tables_header_only (db : database) :
  db_connect db = None ->
  db_execute db catalog_query = Returned [] ->
  fst (run db) = Returned tt /\
  stdout (snd (run db)) = unlines ["Tables in the database:"].
Proof.
  intros Hc Hq.
  assert (H : holds_tables db []).
  { split; [exact Hc|]. exists []. split; [exact Hq|constructor]. }
  now rewrite (run_holds_tables db [] H).
Qed.

(** The database without tables. *)
Lemma no_tables_header_only_empty_db :
  fst (run empty_db) = Returned tt /\
  stdout (snd (run empty_db)) = unlines ["Tables in the database:"].
Proof.
  apply (no_tables_header_only empty_db); reflexivity.
Defined.

End DbPrintFacts.

(** ** linecount.py *)

Module LineCountFacts.
Import LineCount.

(** *** The suffix test *)

Lemma endswith_refl s : endswith s s = true.
Proof. destruct s; cbn [endswith]; now rewrite String.eqb_refl. Qed.

Lemma endswith_iff s suffix :
  endswith s suffix = true <-> exists pre, s = pre ++ suffix.
Proof.
  split.
  - induction s as [|c s IH]; cbn [endswith].
    + destruct (String.eqb_spec "" suffix) as [<-|]; [|discriminate].
      intros _. now exists "".
    + destruct (String.eqb_spec (String c s) suffix) as [<-|_].
      * intros _. now exists "".
      * intros H. destruct (IH H) as [pre ->]. now exists (String c pre).
  - intros [pre ->]. induction pre as [|c pre IH]; cbn [append endswith].
    + apply endswith_refl.
    + rewrite IH. now destruct (String.eqb _ _).
Qed.

Lemma endswith_app a b suffix :
  endswith b suffix = true -> endswith (a ++ b) suffix = true.
Proof.
  rewrite !endswith_iff. intros [pre ->]. exists (a ++ pre).
  now rewrite append_assoc.
Qed.

Lemma endswith_os_path_join root name suffix :
  endswith name suffix = true ->
  endswith (os_path_join root name) suffix = true.
Proof.
  intros H. unfold os_path_join.
  destruct (startswith name "/"); [exact H|].
  destruct (_ || _); repeat apply endswith_app; exact H.
Qed.

(** *** The tree and its walk *)

Section NodeInd.
Variable Q : node -> Prop.
Hypothesis HFile : forall name st, Q (File name st).
Hypothesis HDir : forall name entries, Forall Q entries -> Q (Dir name entries).
Hypothesis HUnwalked : forall name, Q (Unwalked name).

Fixpoint node_ind (n : node) : Q n :=
  match n with
  | File name st => HFile name st
  | Dir name entries =>
      HDir name entries
        ((fix all (l : list node) : Forall Q l :=
            match l with
            | [] => Forall_nil Q
            | e :: l' => Forall_cons e (node_ind e) (all l')
            end) entries)
  | Unwalked name => HUnwalked name
  end.
End NodeInd.

Lemma map_snd_pair {A B} (a : A) (l : list B) : map snd (map (pair a) l) = l.
Proof. induction l as [|x l IH]; simpl; [reflexivity|]. now rewrite IH. Qed.

Lemma walk_files_dir directory name entries :
  walk_files directory (Dir name entries)
  = (map (pair directory) (nondirs entries)
     ++ flat_map (fun e =>
          if is_dir e then walk_files (os_path_join directory (node_name e)) e
          else [])
        entries)%list.
Proof.
  unfold walk_files. cbn [walk flat_map]. f_equal.
  induction entries as [|e entries IH]; simpl; [reflexivity|].
  rewrite flat_map_app, IH. f_equal. now destruct (is_dir e).
Qed.

(** The walk reaches exactly the files below the directory. *)
Lemma walk_files_under fs :
  forall directory, map snd (walk_files directory fs) = files_under fs.
Proof.
  induction fs as [name st|name entries IH|name] using node_ind;
    intros directory; try reflexivity.
  rewrite walk_files_dir. cbn [files_under].
  rewrite map_app, map_snd_pair. f_equal.
  induction IH as [|e entries He _ IHl]; simpl; [reflexivity|].
  rewrite map_app, IHl. f_equal.
  destruct e; try reflexivity; apply He.
Qed.

(** *** Lines *)

Lemma list_ind2 {A} (Q : list A -> Prop) :
  Q [] -> (forall x, Q [x]) ->
  (forall x y l, Q l -> Q (y :: l) -> Q (x :: y :: l)) ->
  forall l, Q l.
Proof.
  intros H0 H1 H2 l. enough (Q l /\ forall x, Q (x :: l)) by tauto.
  induction l as [|y l [IH1 IH2]]; split; auto.
Qed.

Lemma translate_newlines_cons2 x y l :
  translate_newlines (x :: y :: l)
  = if (x =? CR)%N
    then LF :: (if (y =? LF)%N then translate_newlines l
                else translate_newlines (y :: l))
    else x :: translate_newlines (y :: l).
Proof. reflexivity. Qed.

Lemma terminators_cons2 x y l :
  terminators (x :: y :: l)
  = if (x =? CR)%N
    then S (if (y =? LF)%N then terminators l else terminators (y :: l))
    else if (x =? LF)%N then S (terminators (y :: l))
    else terminators (y :: l).
Proof. reflexivity. Qed.

Lemma split_keepends_length text :
  forall cur,
    length (split_keepends cur (translate_newlines text))
    = terminators text
      + (if match text with
            | [] => match cur with [] => false | _ => true end
            | _ => unterminated_tail text
            end
         then 1 else 0).
Proof.
  induction text as [|c|x y l IHl IHyl] using list_ind2; intros cur.
  - simpl. now destruct cur.
  - cbn [translate_newlines terminators unterminated_tail is_terminator].
    destruct (N.eqb_spec c CR) as [->|Hcr]; [reflexivity|].
    cbn [split_keepends].
    destruct (N.eqb_spec c LF) as [->|Hlf]; [reflexivity|].
    simpl. unfold is_terminator.
    destruct (N.eqb_spec c LF); [contradiction|].
    destruct (N.eqb_spec c CR); [contradiction|].
    now destruct cur.
  - rewrite translate_newlines_cons2, terminators_cons2.
    change (unterminated_tail (x :: y :: l)) with (unterminated_tail (y :: l)).
    destruct (N.eqb_spec x CR) as [->|Hcr].
    + cbn [split_keepends]. change (LF =? LF)%N with true. cbn [length].
      destruct (N.eqb_spec y LF) as [->|Hlf].
      * rewrite IHl. destruct l; reflexivity.
      * rewrite IHyl. reflexivity.
    + cbn [split_keepends].
      destruct (N.eqb_spec x LF) as [->|Hlf]; cbn [length]; now rewrite IHyl.
Qed.

(** [len(f.readlines())] is the number of lines of the specification's
    rule. *)
Lemma readlines_length text :
  length (readlines text) = spec_line_count text.
Proof.
  unfold readlines, spec_line_count. rewrite split_keepends_length.
  now destruct text.
Qed.

(** *** One file *)

Lemma visit_not_go root file s :
  is_go file = false -> visit root file s = (Returned tt, s).
Proof. unfold visit, is_go. now intros ->. Qed.

Lemma visit_go_readable root file bytes text s :
  is_go file = true ->
  snd file = Content bytes ->
  utf8_decode bytes = Some text ->
  visit root file s
  = (Returned tt,
     {| total_lines := total_lines s + Z.of_nat (spec_line_count text);
        go_files_count := go_files_count s + 1;
        opened := opened s ++ [os_path_join root (fst file)];
        stdout := stdout s |}).
Proof.
  unfold visit, is_go. intros -> Hst Hdec.
  unfold bind, set_go_files_count, open_file, f_readlines, set_total_lines,
    modify, bind, ret. rewrite Hst. cbn. rewrite Hdec. cbn.
  unfold len. now rewrite readlines_length.
Qed.

Lemma visit_unreadable root file s :
  is_go file = true ->
  readable (snd file) = false ->
  exists e s', visit root file s = (Raised e, s') /\ stdout s' = stdout s.
Proof.
  unfold visit, is_go, readable. intros -> Hr.
  unfold bind, set_go_files_count, open_file, f_readlines, modify, bind, ret, raise.
  destruct (snd file) as [errno|bytes]; cbn.
  - eauto.
  - destruct (utf8_decode bytes); [discriminate|]. cbn. eauto.
Qed.

Lemma visit_cases root file s :
  (exists s', visit root file s = (Returned tt, s') /\
     go_files_count s' = (go_files_count s + (if is_go file then 1 else 0))%Z /\
     (total_lines s <= total_lines s')%Z /\ stdout s' = stdout s) \/
  (exists e s', visit root file s = (Raised e, s') /\
     go_files_count s' = (go_files_count s + (if is_go file then 1 else 0))%Z /\
     total_lines s' = total_lines s /\ stdout s' = stdout s).
Proof.
  destruct (is_go file) eqn:Hgo.
  - destruct (snd file) as [errno|bytes] eqn:Hst.
    + right. unfold visit. fold (is_go file). rewrite Hgo.
      unfold bind, set_go_files_count, open_file, modify, bind, raise.
      rewrite Hst. cbn. eauto 6.
    + destruct (utf8_decode bytes) as [text|] eqn:Hdec.
      * left. rewrite (visit_go_readable root file bytes text s Hgo Hst Hdec).
        eexists. split; [reflexivity|]. cbn. repeat split; lia.
      * right. unfold visit. fold (is_go file). rewrite Hgo.
        unfold bind, set_go_files_count, open_file, f_readlines, modify, bind,
          raise, ret. rewrite Hst. cbn. rewrite Hdec. cbn. eauto 6.
  - left. rewrite (visit_not_go root file s Hgo). exists s.
    repeat split; lia.
Qed.

Lemma visit_monotone root file s : counters_le s (snd (visit root file s)).
Proof.
  unfold counters_le.
  destruct (visit_cases root file s) as [(s' & -> & Hc & Ht & _)|(e & s' & -> & Hc & Ht & _)];
    cbn; rewrite Hc; destruct (is_go file); lia.
Qed.

(** *** The traversal *)

(** The nested loops of [count_go_lines] are one loop over the files of
    the walk. *)
Lemma nested_loops_flat directory fs s :
  for_each (walk directory fs) (fun step =>
    let '(root, _, files) := step in
    for_each files (fun file => visit root file)) s
  = for_each (walk_files directory fs) visit_step s.
Proof.
  unfold walk_files. rewrite for_each_flat_map.
  apply for_each_ext. intros [[root dirs] files] s' _.
  now rewrite for_each_map.
Qed.

Lemma count_go_lines_unfold directory fs s :
  count_go_lines directory fs s
  = match for_each (walk_files directory fs) visit_step (reset s) with
    | (Returned _, s') => (Returned (counters s'), s')
    | (Raised e, s') => (Raised e, s')
    end.
Proof.
  unfold count_go_lines, bind at 1 2 3, set_total_lines, set_go_files_count, modify.
  cbn [total_lines go_files_count opened stdout].
  rewrite nested_loops_flat. fold (reset s).
  now destruct (for_each _ _ (reset s)) as [[[]|e] s'].
Qed.

Lemma go_count_cons f files :
  go_count (f :: files) = ((if is_go f then 1 else 0) + go_count files)%Z.
Proof. unfold go_count. simpl filter. destruct (is_go f); simpl length; lia. Qed.

Lemma go_lines_cons f files :
  go_lines (f :: files)
  = ((if is_go f then Z.of_nat (file_lines (snd f)) else 0) + go_lines files)%Z.
Proof.
  unfold go_lines. simpl filter. destruct (is_go f); simpl; lia.
Qed.

Lemma advance_nil s : advance s [] = s.
Proof.
  destruct s. unfold advance; cbn. f_equal; try lia. apply app_nil_r.
Qed.

(** When every matching file can be read, the loop returns, having added
    the number of matching files and of their lines to the counters. *)
Lemma visits_return fl :
  Forall (fun f => is_go f = true -> readable (snd f) = true) (map snd fl) ->
  forall s, for_each fl visit_step s = (Returned tt, advance s fl).
Proof.
  induction fl as [|[root file] fl IH]; intros Hall s; cbn [for_each map] in *.
  - now rewrite advance_nil.
  - inversion Hall as [|? ? Hf Hfl]; subst. unfold bind.
    change (visit_step (root, file)) with (visit root file). cbn [fst snd].
    destruct (is_go file) eqn:Hgo.
    + specialize (Hf eq_refl). unfold readable in Hf.
      destruct (snd file) as [errno|bytes] eqn:Hst; [discriminate|].
      destruct (utf8_decode bytes) as [text|] eqn:Hdec; [|discriminate].
      rewrite (visit_go_readable root file bytes text s Hgo Hst Hdec).
      rewrite (IH Hfl). f_equal. unfold advance.
      cbn [total_lines go_files_count opened stdout map filter snd].
      rewrite go_count_cons, go_lines_cons, Hgo.
      unfold file_lines. rewrite Hst, Hdec. cbn [map].
      rewrite <- app_assoc. f_equal; lia.
    + rewrite (visit_not_go root file s Hgo). rewrite (IH Hfl). f_equal.
      unfold advance. cbn [map filter snd].
      rewrite go_count_cons, go_lines_cons, Hgo. f_equal; lia.
Qed.

Lemma count_go_lines_returns directory fs s :
  Forall (fun f => is_go f = true -> readable (snd f) = true) (files_under fs) ->
  count_go_lines directory fs s
  = (Returned (go_count (files_under fs), go_lines (files_under fs)),
     advance (reset s) (walk_files directory fs)).
Proof.
  intros Hall. rewrite count_go_lines_unfold.
  rewrite visits_return by now rewrite walk_files_under.
  unfold counters, advance. cbn. now rewrite walk_files_under.
Qed.

(** When a matching file cannot be read, the loop raises, and nothing has
    gone to standard output. *)
Lemma visits_raise fl rf :
  In rf fl -> is_go (snd rf) = true -> readable (snd (snd rf)) = false ->
  forall s, exists e s',
    for_each fl visit_step s = (Raised e, s') /\ stdout s' = stdout s.
Proof.
  induction fl as [|x fl IH]; intros Hin Hgo Hr s; [contradiction|].
  cbn [for_each]. unfold bind.
  change (visit_step x) with (visit (fst x) (snd x)).
  destruct (visit_cases (fst x) (snd x) s)
    as [(s1 & Hv & _ & _ & Hout)|(e & s1 & Hv & _ & _ & Hout)]; rewrite Hv.
  - destruct Hin as [->|Hin].
    + destruct (visit_unreadable (fst rf) (snd rf) s Hgo Hr) as (e & s2 & Hv' & _).
      congruence.
    + destruct (IH Hin Hgo Hr s1) as (e & s2 & -> & Hout2).
      exists e, s2. split; [reflexivity|congruence].
  - eauto.
Qed.

Lemma count_go_lines_raises directory fs f s :
  In f (files_under fs) -> is_go f = true -> readable (snd f) = false ->
  exists e s',
    count_go_lines directory fs s = (Raised e, s') /\ stdout s' = stdout s.
Proof.
  intros Hin Hgo Hr. rewrite <- (walk_files_under fs directory) in Hin.
  apply in_map_iff in Hin as ([root f'] & Hf & Hin). cbn in Hf. subst f'.
  rewrite count_go_lines_unfold.
  destruct (visits_raise _ (root, f) Hin Hgo Hr (reset s)) as (e & s' & -> & Hout).
  exists e, s'. split; [reflexivity|exact Hout].
Qed.

(** Whether a run returns is decided by the matching files. *)
Lemma all_readable_dec (files : list dirent) :
  Forall (fun f => is_go f = true -> readable (snd f) = true) files \/
  exists f, In f files /\ is_go f = true /\ readable (snd f) = false.
Proof.
  induction files as [|f files [IH|(g & Hin & Hg)]].
  - left. constructor.
  - destruct (is_go f) eqn:Hgo; [destruct (readable (snd f)) eqn:Hr|].
    + left. constructor; auto.
    + right. exists f. split; [now left|auto].
    + left. constructor; [congruence|auto].
  - right. exists g. split; [now right|auto].
Qed.

Lemma go_count_perm l l' : Permutation l l' -> go_count l = go_count l'.
Proof.
  induction 1 as [|x l l' _ IH|x y l|l l' l'' _ IH1 _ IH2];
    rewrite ?go_count_cons; lia.
Qed.

Lemma go_lines_perm l l' : Permutation l l' -> go_lines l = go_lines l'.
Proof.
  induction 1 as [|x l l' _ IH|x y l|l l' l'' _ IH1 _ IH2];
    rewrite ?go_lines_cons; lia.
Qed.

Lemma run_returns fs :
  Forall (fun f => is_go f = true -> readable (snd f) = true) (files_under fs) ->
  run fs
  = (Returned tt,
     {| total_lines := go_lines (files_under fs);
        go_files_count := go_count (files_under fs);
        opened := map path_of (filter (fun rf => is_go (snd rf)) (walk_files "." fs));
        stdout :=
          unlines ["Total Go files: " ++ str_int (go_count (files_under fs));
                   "Total lines of Go code: " ++ str_int (go_lines (files_under fs))] |}).
Proof.
  intros Hall. unfold run, main, bind.
  rewrite (count_go_lines_returns "." fs initial Hall).
  unfold print, modify, advance, reset, initial.
  cbn [fst snd total_lines go_files_count opened stdout unlines app].
  rewrite walk_files_under. f_equal. f_equal; try lia. now text_eq.
Qed.

(** *** The claims on the line counter *)

(** C4: for a file whose name ends in ".go" and whose bytes decode, the
    step of the traversal returns and adds to the line total exactly the
    number of lines of the file under the line-splitting rule: one line per
    terminator sequence, one more for an unterminated final line, none for
    an empty file. *)
Theorem per_file_contribution root name bytes text s :
  endswith name ".go" = true ->
  utf8_decode bytes = Some text ->
  fst (visit root (name, Content bytes) s) = Returned tt /\
  total_lines (snd (visit root (name, Content bytes) s))
  = (total_lines s + Z.of_nat (spec_line_count text))%Z /\
  (text = [] ->
   total_lines (snd (visit root (name, Content bytes) s)) = total_lines s).
Proof.
  intros Hgo Hdec.
  rewrite (visit_go_readable root (name, Content bytes) bytes text s Hgo eq_refl Hdec).
  cbn [fst snd total_lines]. repeat split. intros ->. cbn. lia.
Qed.

(** a.go of the scenario: two terminated lines and an unterminated one. *)
Lemma per_file_contribution_a_go :
  fst (visit "." ("a.go", a_go) initial) = Returned tt /\
  total_lines (snd (visit "." ("a.go", a_go) initial)) = 3%Z.
Proof.
  pose (bytes := text_bytes ["package a"; "func A() {"] "}").
  pose (text := match utf8_decode bytes with Some t => t | None => [] end).
  assert (Hdec : utf8_decode bytes = Some text) by (vm_compute; reflexivity).
  destruct (per_file_contribution "." "a.go" bytes text initial eq_refl Hdec)
    as (Hret & Hlines & _).
  split; [exact Hret|]. fold bytes in Hlines |- *. unfold a_go. fold bytes.
  rewrite Hlines. vm_compute. reflexivity.
Defined.

(** C5: on a tree without any file whose name ends in ".go",
    [count_go_lines] returns (0, 0). *)
Theorem no_go_files_zero fs :
  Forall (fun f => endswith (fst f) ".go" = false) (files_under fs) ->
  forall directory s, fst (count_go_lines directory fs s) = Returned (0, 0)%Z.
Proof.
  intros Hno directory s.
  rewrite count_go_lines_returns.
  - cbn [fst]. unfold go_count, go_lines.
    replace (filter is_go (files_under fs)) with (@nil dirent); [reflexivity|].
    induction Hno as [|f files Hf _ IH]; cbn [filter]; [reflexivity|].
    unfold is_go at 1. now rewrite Hf.
  - eapply Forall_impl; [|exact Hno]. unfold is_go. intros f Hf. congruence.
Qed.

(** A tree of text files and an empty directory. *)
Lemma no_go_files_zero_notes_tree :
  fst (count_go_lines "." notes_tree initial) = Returned (0, 0)%Z.
Proof.
  apply (no_go_files_zero notes_tree). repeat constructor.
Defined.

(** C6: a tree that holds, at whatever depth and in whatever order, exactly
    the files a.go of 3 lines, b.go of 5 lines and c.txt makes
    [count_go_lines] return (2, 8) and the program print the two totals.
    Nothing is asked of c.txt: it is not opened, every path opened ends in
    ".go", and the result is the same when c.txt cannot be read. *)
Theorem scenario_two_go_files fs a b c :
  Permutation (files_under fs) [("a.go", a); ("b.go", b); ("c.txt", c)] ->
  readable a = true -> file_lines a = 3 ->
  readable b = true -> file_lines b = 5 ->
  (forall directory s,
     fst (count_go_lines directory fs s) = Returned (2, 8)%Z) /\
  fst (run fs) = Returned tt /\
  stdout (snd (run fs))
  = unlines ["Total Go files: 2"; "Total lines of Go code: 8"] /\
  (forall p, In p (opened (snd (run fs))) -> endswith p ".go" = true).
Proof.
  intros Hperm Ha Hla Hb Hlb.
  assert (Hall : Forall (fun f => is_go f = true -> readable (snd f) = true)
                        (files_under fs)).
  { eapply Permutation_Forall; [apply Permutation_sym, Hperm|].
    repeat constructor; cbn; auto. discriminate. }
  assert (Hc : go_count (files_under fs) = 2%Z).
  { rewrite (go_count_perm _ _ Hperm). reflexivity. }
  assert (Hl : go_lines (files_under fs) = 8%Z).
  { rewrite (go_lines_perm _ _ Hperm). unfold go_lines.
    change (filter is_go [("a.go", a); ("b.go", b); ("c.txt", c)])
      with [("a.go", a); ("b.go", b)].
    cbn [map snd list_sum]. rewrite Hla, Hlb. reflexivity. }
  split.
  - intros directory s. rewrite (count_go_lines_returns directory fs s Hall).
    cbn [fst]. now rewrite Hc, Hl.
  - rewrite (run_returns fs Hall). cbn [fst snd stdout opened].
    rewrite Hc, Hl. repeat split.
    intros p Hin. apply in_map_iff in Hin as ([root f] & <- & Hin).
    apply filter_In in Hin as [_ Hgo]. now apply endswith_os_path_join.
Qed.

(** The three files spread over nested directories. *)
Lemma scenario_two_go_files_nested :
  (forall directory s,
     fst (count_go_lines directory nested_tree s) = Returned (2, 8)%Z) /\
  fst (run nested_tree) = Returned tt /\
  stdout (snd (run nested_tree))
  = unlines ["Total Go files: 2"; "Total lines of Go code: 8"] /\
  (forall p, In p (opened (snd (run nested_tree))) -> endswith p ".go" = true).
Proof.
  apply (scenario_two_go_files nested_tree a_go b_go c_txt);
    [|vm_compute; reflexivity ..].
  cbn. apply perm_skip, perm_swap.
Defined.

(** C9: when a file whose name ends in ".go" cannot be opened or does not
    decode, [count_go_lines] raises and returns no pair, and the program
    ends on the exception without having printed anything. *)
Theorem unreadable_go_file_aborts fs f :
  In f (files_under fs) ->
  endswith (fst f) ".go" = true ->
  readable (snd f) = false ->
  (forall directory s, exists e s',
     count_go_lines directory fs s = (Raised e, s')) /\
  (exists e s', run fs = (Raised e, s') /\ stdout s' = "").
Proof.
  intros Hin Hgo Hr. split.
  - intros directory s.
    destruct (count_go_lines_raises directory fs f s Hin Hgo Hr) as (e & s' & H & _).
    eauto.
  - destruct (count_go_lines_raises "." fs f initial Hin Hgo Hr) as (e & s' & H & Hout).
    exists e, s'. unfold run, main, bind. rewrite H. auto.
Qed.

(** cmd/b.go without read permission, met after a.go has been counted. *)
Lemma unreadable_go_file_aborts_locked :
  (forall directory s, exists e s',
     count_go_lines directory locked_tree s = (Raised e, s')) /\
  (exists e s', run locked_tree = (Raised e, s') /\ stdout s' = "").
Proof.
  apply (unreadable_go_file_aborts locked_tree ("b.go", CannotOpen EACCES));
    [cbn; auto | reflexivity | reflexivity].
Defined.

(** C10: the filter is a case-sensitive test of the last three characters
    of the name: a file is counted exactly when its name is some text
    followed by ".go"; ".go" itself is counted, "main.GO" and "main.Go" are
    not.  What [count_go_lines] returns as its first component is the number
    of non-directory entries with such a name; a directory with such a name
    is not counted, and is walked like any other. *)
Theorem go_suffix_filter :
  (forall name, endswith name ".go" = true <-> exists stem, name = stem ++ ".go") /\
  (forall root file s,
     go_files_count (snd (visit root file s))
     = (go_files_count s + (if endswith (fst file) ".go" then 1 else 0))%Z) /\
  (endswith ".go" ".go" = true /\
   endswith "main.GO" ".go" = false /\
   endswith "main.Go" ".go" = false) /\
  (forall directory fs s c t,
     fst (count_go_lines directory fs s) = Returned (c, t) ->
     c = Z.of_nat (length (filter (fun f => endswith (fst f) ".go")
                                  (files_under fs)))) /\
  (fst (count_go_lines "." go_named_dir_tree initial) = Returned (0, 0)%Z /\
   fst (count_go_lines "." go_named_dir_with_go_file initial) = Returned (1, 3)%Z).
Proof.
  split; [|split; [|split; [|split]]].
  - intros name. apply endswith_iff.
  - intros root file s.
    destruct (visit_cases root file s) as [(s' & -> & Hc & _)|(e & s' & -> & Hc & _)];
      exact Hc.
  - repeat split.
  - intros directory fs s c t H.
    destruct (all_readable_dec (files_under fs)) as [Hall|(f & Hin & Hgo & Hr)].
    + rewrite (count_go_lines_returns directory fs s Hall) in H.
      cbn [fst] in H. now inversion H.
    + destruct (count_go_lines_raises directory fs f s Hin Hgo Hr) as (e & s' & H' & _).
      rewrite H' in H. discriminate.
  - split; vm_compute; reflexivity.
Qed.

(** *** The counters along the traversal *)

Section Trace.
Context {S A : Type}.
Variable body : A -> M S unit.

Lemma trace_head l s : exists rest, trace body l s = s :: rest.
Proof. destruct l; cbn [trace]; eauto. Qed.

Lemma last_cons_default (a : S) l d d' : last (a :: l) d = last (a :: l) d'.
Proof.
  revert a. induction l as [|b l IH]; intros a; [reflexivity|].
  change (last (b :: l) d = last (b :: l) d'). apply IH.
Qed.

(** The state a loop ends in is the last state of its trace. *)
Lemma trace_last l : forall s, snd (for_each l body s) = last (trace body l s) s.
Proof.
  induction l as [|x l IH]; intros s; cbn [for_each trace]; [reflexivity|].
  unfold bind. destruct (body x s) as [[[]|e] s1]; [|reflexivity].
  rewrite IH. destruct (trace_head l s1) as [rest ->].
  change (last (s :: s1 :: rest) s) with (last (s1 :: rest) s).
  apply last_cons_default.
Qed.

(** When every step respects [R], consecutive states of the trace are
    related by [R]. *)
Lemma trace_sorted (R : S -> S -> Prop) l :
  (forall x s, R s (snd (body x s))) ->
  forall s, Sorted R (trace body l s).
Proof.
  intros Hstep. induction l as [|x l IH]; intros s; cbn [trace].
  - repeat constructor.
  - specialize (Hstep x s). destruct (body x s) as [[[]|e] s1]; cbn in Hstep.
    + constructor; [apply IH|]. destruct (trace_head l s1) as [rest ->].
      now constructor.
    + repeat constructor. exact Hstep.
Qed.
End Trace.

Lemma counters_le_trans s1 s2 s3 :
  counters_le s1 s2 -> counters_le s2 s3 -> counters_le s1 s3.
Proof. unfold counters_le. lia. Qed.

(** C7: the traversal, seen as the per-file steps from the state in which
    both counters are 0, never lowers a counter: every state is at most its
    successor, hence at most every later state, and the pair returned is the
    pair of counters of the last state. *)
Theorem counters_accumulate directory fs s :
  let steps := trace visit_step (walk_files directory fs) (reset s) in
  counters (hd s steps) = (0, 0)%Z /\
  Sorted counters_le steps /\
  StronglySorted counters_le steps /\
  snd (count_go_lines directory fs s) = last steps s /\
  (forall c t,
     fst (count_go_lines directory fs s) = Returned (c, t) ->
     (c, t) = counters (last steps s)).
Proof.
  intros steps.
  assert (Hsorted : Sorted counters_le steps).
  { apply trace_sorted. intros [root file] s'. apply visit_monotone. }
  assert (Hlast : snd (count_go_lines directory fs s) = last steps s).
  { rewrite count_go_lines_unfold. subst steps.
    destruct (trace_head visit_step (walk_files directory fs) (reset s)) as [rest Hrest].
    rewrite Hrest, (last_cons_default _ _ s (reset s)), <- Hrest, <- trace_last.
    now destruct (for_each _ _ (reset s)) as [[[]|e] s']. }
  repeat split.
  - subst steps.
    now destruct (trace_head visit_step (walk_files directory fs) (reset s)) as [rest ->].
  - exact Hsorted.
  - apply Sorted_StronglySorted; [|exact Hsorted].
    intros s1 s2 s3. apply counters_le_trans.
  - exact Hlast.
  - intros c t H. rewrite <- Hlast. rewrite count_go_lines_unfold in *.
    destruct (for_each _ _ (reset s)) as [[[]|e] s']; cbn in *; congruence.
Qed.

End LineCountFacts.

(** * Further properties *)

(** ** dbprint.py: failing runs and what a run reads *)

Module DbPrintMore.
Import DbPrint DbPrintFacts.

Lemma bind_step {S A B} (c : M S A) (k : A -> M S B) s :
  bind c k s
  = match c s with
    | (Returned a, s') => k a s'
    | (Raised e, s') => (Raised e, s')
    end.
Proof. reflexivity. Qed.

Lemma names_only_loop catalog names :
  Forall2 first_column catalog names ->
  forall s,
    for_each catalog (fun table =>
      name <- item0 table ;;
      print (str_value name)) s
    = (Returned tt, shown s (unlines names)).
Proof.
  induction 1 as [|r n catalog names (v & rest & -> & Hv) _ IH]; intros s;
    cbn [for_each].
  - now rewrite shown_empty.
  - unfold bind at 1 2, item0, ret, print at 1, modify. rewrite IH, Hv. f_equal.
    unfold shown; cbn [conn pending stdout unlines]. f_equal. now text_eq.
Qed.

Lemma listed_first_column db catalog tables :
  Forall2 (listed_in db) catalog tables ->
  Forall2 first_column catalog (map fst tables).
Proof.
  induction 1 as [|r t catalog tables [Hr _] _ IH]; cbn [map]; constructor; auto.
Qed.

(** X1: a run that cannot connect, or whose catalogue query raises, ends
    on that exception without having printed anything, not even the header
    line; in the second case the connection stays open. *)
Theorem early_failure_prints_nothing (db : database) :
  (forall e, db_connect db = Some e -> run db = (Raised e, initial)) /\
  (forall e,
     db_connect db = None ->
     db_execute db catalog_query = Raised e ->
     run db = (Raised e, {| conn := Connected; pending := []; stdout := "" |})).
Proof.
  split.
  - intros e Hc. unfold run, dbprint, bind at 1, connect. now rewrite Hc.
  - intros e Hc Hq.
    unfold run, dbprint, bind at 1 2 3, connect, cursor, execute.
    now rewrite Hc, Hq.
Qed.

(** A file that cannot be opened, and a file that is not a database. *)
Lemma early_failure_prints_nothing_examples :
  run missing_db
  = (Raised (SqliteError "unable to open database file"), initial) /\
  stdout (snd (run malformed_db)) = "".
Proof.
  split.
  - apply (proj1 (early_failure_prints_nothing missing_db)). reflexivity.
  - now rewrite (proj2 (early_failure_prints_nothing malformed_db)
                   (SqliteError "file is not a database") eq_refl eq_refl).
Defined.

(** X2: when the scan of a table raises, the run ends on that exception
    with the connection open, having printed the header, the names of all
    the tables, the sections of the tables before the failing one and the
    content header of the failing one; the tables after it get no section. *)
Theorem scan_failure_partial_listing
        db cat_done r_fail cat_rest done name names_rest e :
  db_connect db = None ->
  db_execute db catalog_query = Returned (cat_done ++ r_fail :: cat_rest)%list ->
  Forall2 (listed_in db) cat_done done ->
  first_column r_fail name ->
  db_execute db (content_query name) = Raised e ->
  Forall2 first_column cat_rest names_rest ->
  run db
  = (Raised e,
     {| conn := Connected; pending := [];
        stdout :=
          unlines ("Tables in the database:"
                   :: (map fst done ++ name :: names_rest)
                   ++ flat_map spec_section done
                   ++ [""; ("Content of table '" ++ name ++ "':")%string])%list |}).
Proof.
  intros Hc Hq Hdone (v & rest & -> & Hv) Hfail Hrest.
  assert (Hnames : Forall2 first_column (cat_done ++ (v :: rest) :: cat_rest)
                           (map fst done ++ name :: names_rest)).
  { apply Forall2_app; [now apply (listed_first_column db)|].
    constructor; [now exists v, rest|exact Hrest]. }
  unfold run, dbprint, bind at 1 2 3 4 5, connect, cursor, execute, fetchall,
    print at 1.
  rewrite Hc, Hq. unfold modify. cbn [pending conn stdout initial].
  unfold bind at 1. rewrite (names_only_loop _ _ Hnames).
  unfold bind at 1. rewrite for_each_app.
  unfold bind at 1. rewrite (sections_loop db cat_done done Hdone) by reflexivity.
  cbn [for_each]. unfold bind at 1 2 3 4 5, item0, ret, print at 1, execute, modify.
  rewrite Hv, Hfail. unfold raise, shown. cbn [pending conn stdout].
  f_equal. f_equal. cbn [unlines]. rewrite !unlines_app. cbn [unlines].
  now text_eq.
Qed.

Lemma scan_failure_partial_listing_order :
  run users_order_db
  = (Raised (SqliteError "near order: syntax error"),
     {| conn := Connected; pending := [];
        stdout :=
          unlines ["Tables in the database:"; "users"; "order"; "logs";
                   ""; "Content of table 'users':"; "(1, 'alice')"; "(2, 'bob')";
                   ""; "Content of table 'order':"] |}).
Proof.
  apply (scan_failure_partial_listing users_order_db
           [[VText "users"]] [VText "order"] [[VText "logs"]]
           [("users", [[VInt 1; VText "alice"]; [VInt 2; VText "bob"]])]
           "order" ["logs"]).
  - reflexivity.
  - reflexivity.
  - repeat constructor. now exists (VText "users"), [].
  - now exists (VText "order"), [].
  - reflexivity.
  - repeat constructor. now exists (VText "logs"), [].
Defined.

(** X3: a run reads the database only through the connection, the
    catalogue query and the scan of every listed table: two database files
    that answer these alike give the same run, whatever else they hold. *)
Theorem run_reads_listed_tables_only db1 db2 :
  agree_on_listed db1 db2 -> run db1 = run db2.
Proof.
  intros (Hc & Hq & Hscan). unfold run, dbprint.
  apply bind_ext; [intros s; unfold connect; now rewrite Hc|intros _ s1].
  apply bind_ext; [reflexivity|intros _ s2].
  rewrite 2 bind_step. unfold execute. rewrite <- Hq.
  destruct (db_execute db1 catalog_query) as [catalog|e] eqn:Hcat; [|reflexivity].
  unfold modify. cbv beta iota.
  rewrite 2 bind_step. unfold fetchall. cbv beta iota. cbn [pending conn stdout].
  apply bind_ext; [reflexivity|intros _ s3].
  apply bind_ext; [reflexivity|intros _ s4].
  apply bind_ext; [|reflexivity]. intros s5.
  apply for_each_ext. intros table s6 Hin.
  destruct table as [|v rest]; [reflexivity|].
  rewrite 2 bind_step. cbn [item0]. unfold ret. cbv beta iota.
  apply bind_ext; [reflexivity|intros _ s7].
  unfold bind. cbv beta iota.
  now rewrite (Hscan catalog v rest eq_refl Hin).
Qed.

Lemma run_reads_listed_tables_only_view :
  agree_on_listed users_db users_db_with_view /\
  db_execute users_db "SELECT * FROM recent_users"
  <> db_execute users_db_with_view "SELECT * FROM recent_users" /\
  run users_db = run users_db_with_view.
Proof.
  assert (H : agree_on_listed users_db users_db_with_view).
  { split; [reflexivity|]. split; [reflexivity|].
    intros catalog v rest Hcat Hin. injection Hcat as <-.
    destruct Hin as [Heq|[]]. injection Heq as <- <-. reflexivity. }
  split; [exact H|]. split; [discriminate|].
  exact (run_reads_listed_tables_only users_db users_db_with_view H).
Defined.

(** A table loop that returns has scanned every table of the catalogue. *)
Lemma sections_loop_returns db catalog :
  forall s s',
    for_each catalog (fun table =>
      name <- item0 table ;;
      print (nl ++ "Content of table '" ++ str_value name ++ "':") ;;
      name <- item0 table ;;
      execute db (content_query (str_value name)) ;;
      rows <- fetchall ;;
      for_each rows (fun row => print (repr_tuple row))) s
    = (Returned tt, s') ->
    exists tables, Forall2 (listed_in db) catalog tables.
Proof.
  induction catalog as [|r catalog IH]; intros s s' H.
  - exists []. constructor.
  - cbn [for_each] in H. rewrite bind_step in H.
    destruct r as [|v rest]; [discriminate H|].
    rewrite bind_step in H. cbn [item0] in H. unfold ret at 1 in H.
    cbv beta iota in H.
    rewrite bind_step in H. unfold print at 1, modify at 1 in H.
    cbv beta iota in H.
    rewrite bind_step in H. unfold ret at 1 in H. cbv beta iota in H.
    rewrite bind_step in H. unfold execute at 1 in H.
    destruct (db_execute db (content_query (str_value v))) as [rows|e] eqn:Hscan;
      [|discriminate H].
    unfold modify at 1 in H. cbv beta iota in H.
    rewrite bind_step in H. unfold fetchall at 1 in H. cbv beta iota in H.
    rewrite rows_loop in H.
    destruct (IH _ _ H) as [tables Htables].
    exists ((str_value v, rows) :: tables). constructor; [|exact Htables].
    split; [now exists v, rest|exact Hscan].
Qed.

(** X13: a run completes exactly when the database opens, its catalogue
    query answers, and the scan of every table it lists answers; a table
    whose name the interpolated query text cannot reach makes the run fail. *)
Theorem dump_completes_iff (db : database) :
  fst (run db) = Returned tt <-> exists tables, holds_tables db tables.
Proof.
  split.
  - unfold run, dbprint. rewrite bind_step. unfold connect.
    destruct (db_connect db) as [e|] eqn:Hc; [discriminate|].
    unfold modify at 1. cbv beta iota.
    rewrite bind_step. unfold cursor, modify at 1. cbv beta iota.
    rewrite bind_step. unfold execute at 1.
    destruct (db_execute db catalog_query) as [catalog|e] eqn:Hq; [|discriminate].
    unfold modify at 1. cbv beta iota.
    rewrite bind_step. unfold fetchall at 1. cbv beta iota. cbn [pending conn stdout].
    rewrite bind_step. unfold print at 1, modify at 1. cbv beta iota.
    rewrite bind_step.
    destruct (for_each catalog _ _) as [[[]|e] s1]; [|discriminate].
    rewrite bind_step.
    destruct (for_each catalog _ s1) as [[[]|e] s2] eqn:Hloop; [|discriminate].
    intros _. destruct (sections_loop_returns db catalog _ _ Hloop) as [tables Ht].
    exists tables. split; [exact Hc|]. exists catalog. split; [exact Hq|].
    exact Ht.
  - intros [tables H]. now rewrite (run_holds_tables db tables H).
Qed.

End DbPrintMore.

(** ** linecount.py: totals, failures and what is opened *)

Module LineCountMore.
Import LineCount LineCountFacts.

(** X4: when every file whose name ends in ".go" can be read,
    [count_go_lines] returns the number of these files and the sum of their
    line counts, from any directory name and start state, and the program
    prints these two numbers. *)
Theorem totals_of_readable_tree fs :
  Forall (fun f => is_go f = true -> readable (snd f) = true) (files_under fs) ->
  (forall directory s,
     fst (count_go_lines directory fs s)
     = Returned (go_count (files_under fs), go_lines (files_under fs))) /\
  fst (run fs) = Returned tt /\
  stdout (snd (run fs))
  = unlines ["Total Go files: " ++ str_int (go_count (files_under fs));
             "Total lines of Go code: " ++ str_int (go_lines (files_under fs))].
Proof.
  intros Hall. split.
  - intros directory s. now rewrite (count_go_lines_returns directory fs s Hall).
  - now rewrite (run_returns fs Hall).
Qed.

Lemma nested_tree_readable :
  Forall (fun f => is_go f = true -> readable (snd f) = true)
         (files_under nested_tree).
Proof.
  repeat constructor; intros H; try discriminate H; vm_compute; reflexivity.
Qed.

Lemma totals_of_readable_tree_nested :
  (forall directory s,
     fst (count_go_lines directory nested_tree s) = Returned (2, 8)%Z) /\
  fst (run nested_tree) = Returned tt.
Proof.
  destruct (totals_of_readable_tree nested_tree nested_tree_readable)
    as (Hcount & Hrun & _).
  split; [|exact Hrun]. intros directory s. rewrite Hcount. reflexivity.
Defined.

(** X5: [count_go_lines] returns a pair exactly when every file of the
    tree whose name ends in ".go" can be opened and decoded; files with
    another name never make it fail. *)
Theorem returns_iff_go_files_readable directory fs s :
  (exists r, fst (count_go_lines directory fs s) = Returned r) <->
  Forall (fun f => is_go f = true -> readable (snd f) = true) (files_under fs).
Proof.
  split.
  - intros [r Hr].
    destruct (all_readable_dec (files_under fs)) as [Hall|(f & Hin & Hgo & Hf)];
      [exact Hall|].
    destruct (count_go_lines_raises directory fs f s Hin Hgo Hf) as (e & s' & H & _).
    rewrite H in Hr. discriminate.
  - intros Hall. eexists. now rewrite (count_go_lines_returns directory fs s Hall).
Qed.

(** X6: the pair returned depends on the files of the tree only, not on
    the order in which they are enumerated, nor on how they are spread over
    subdirectories, nor on the directory name: two trees with the same files
    return the same pairs. *)
Theorem result_independent_of_layout fs1 fs2 directory1 directory2 s1 s2 :
  Permutation (files_under fs1) (files_under fs2) ->
  forall r,
    fst (count_go_lines directory1 fs1 s1) = Returned r <->
    fst (count_go_lines directory2 fs2 s2) = Returned r.
Proof.
  intros Hperm r.
  destruct (all_readable_dec (files_under fs1)) as [Hall|(f & Hin & Hgo & Hf)].
  - assert (Hall2 := Permutation_Forall Hperm Hall).
    rewrite (count_go_lines_returns directory1 fs1 s1 Hall).
    rewrite (count_go_lines_returns directory2 fs2 s2 Hall2).
    cbn [fst].
    now rewrite (go_count_perm _ _ Hperm), (go_lines_perm _ _ Hperm).
  - destruct (count_go_lines_raises directory1 fs1 f s1 Hin Hgo Hf)
      as (e1 & s1' & -> & _).
    destruct (count_go_lines_raises directory2 fs2 f s2
                (Permutation_in _ Hperm Hin) Hgo Hf) as (e2 & s2' & -> & _).
    split; discriminate.
Qed.

Lemma result_independent_of_layout_scenario :
  Permutation (files_under flat_tree) (files_under nested_tree) /\
  (fst (count_go_lines "." flat_tree initial) = Returned (2, 8)%Z <->
   fst (count_go_lines "src" nested_tree initial) = Returned (2, 8)%Z).
Proof.
  assert (H : Permutation (files_under flat_tree) (files_under nested_tree)).
  { cbn. apply perm_skip, perm_swap. }
  split; [exact H|].
  apply (result_independent_of_layout flat_tree nested_tree _ _ _ _ H).
Defined.

Lemma visit_fails root f s :
  is_go f = true ->
  readable (snd f) = false ->
  visit root f s
  = (Raised (read_error (os_path_join root (fst f)) (snd f)),
     {| total_lines := total_lines s;
        go_files_count := go_files_count s + 1;
        opened := opened s ++ [os_path_join root (fst f)];
        stdout := stdout s |}).
Proof.
  unfold visit, is_go, readable. intros -> Hr.
  unfold bind, set_go_files_count, open_file, f_readlines, modify, bind, ret, raise.
  destruct (snd f) as [errno|bytes]; cbn; [reflexivity|].
  destruct (utf8_decode bytes); [discriminate|]. reflexivity.
Qed.

(** X7: the traversal stops at the first file named "*.go" that cannot be
    read: [count_go_lines] raises the error of that file (the OSError of its
    path, or UnicodeDecodeError), the file has been counted but its lines
    have not, and no file after it in the walk has been opened. *)
Theorem stops_at_first_unreadable directory fs before root f after s :
  walk_files directory fs = (before ++ (root, f) :: after)%list ->
  Forall (fun rf => is_go (snd rf) = true -> readable (snd (snd rf)) = true)
         before ->
  is_go f = true ->
  readable (snd f) = false ->
  count_go_lines directory fs s
  = (Raised (read_error (os_path_join root (fst f)) (snd f)),
     {| total_lines := go_lines (map snd before);
        go_files_count := go_count (map snd before) + 1;
        opened := (opened s
                   ++ map path_of (filter (fun rf => is_go (snd rf)) before)
                   ++ [os_path_join root (fst f)])%list;
        stdout := stdout s |}).
Proof.
  intros Hwalk Hbefore Hgo Hf.
  rewrite count_go_lines_unfold, Hwalk, for_each_app. unfold bind at 1.
  rewrite visits_return.
  2:{ apply Forall_map. exact Hbefore. }
  cbn [for_each]. unfold bind at 1.
  change (visit_step (root, f)) with (visit root f).
  rewrite (visit_fails root f _ Hgo Hf).
  unfold advance, reset. cbn [total_lines go_files_count opened stdout].
  f_equal. f_equal; try lia. now rewrite <- app_assoc.
Qed.

Lemma stops_at_first_unreadable_locked :
  count_go_lines "." locked_tree initial
  = (Raised (OSError EACCES "./cmd/b.go"),
     {| total_lines := 3; go_files_count := 2;
        opened := ["./a.go"; "./cmd/b.go"]; stdout := "" |}).
Proof.
  apply (stops_at_first_unreadable "." locked_tree
           [(".", ("a.go", a_go))] "./cmd" ("b.go", CannotOpen EACCES) []
           initial).
  - reflexivity.
  - repeat constructor.
  - reflexivity.
  - reflexivity.
Defined.

Lemma traversed_refl s : traversed s s.
Proof.
  split; [reflexivity|]. exists []. rewrite app_nil_r. repeat split; auto.
  cbn. lia.
Qed.

Lemma traversed_trans s1 s2 s3 :
  traversed s1 s2 -> traversed s2 s3 -> traversed s1 s3.
Proof.
  intros (Ho1 & n1 & Hn1 & Hf1 & Hc1) (Ho2 & n2 & Hn2 & Hf2 & Hc2).
  split; [congruence|]. exists (n1 ++ n2)%list.
  rewrite Hn2, Hn1, app_assoc, Hc2, Hc1, length_app, Nat2Z.inj_add.
  repeat split; [now apply Forall_app|lia].
Qed.

Lemma traversed_visit root file s : traversed s (snd (visit root file s)).
Proof.
  destruct (is_go file) eqn:Hgo.
  - assert (Hone : forall o s',
        visit root file s = (o, s') ->
        opened s' = (opened s ++ [os_path_join root (fst file)])%list ->
        go_files_count s' = (go_files_count s + 1)%Z ->
        stdout s' = stdout s ->
        traversed s (snd (visit root file s))).
    { intros o s' -> Hop Hc Hout. split; [exact Hout|].
      exists [os_path_join root (fst file)]. cbn [snd]. repeat split; auto.
      constructor; [|constructor]. now apply endswith_os_path_join. }
    destruct (readable (snd file)) eqn:Hr.
    + unfold readable in Hr. destruct (snd file) as [|bytes] eqn:Hst; [discriminate|].
      destruct (utf8_decode bytes) as [text|] eqn:Hdec; [|discriminate].
      eapply Hone; [apply (visit_go_readable root file bytes text s Hgo Hst Hdec)|..];
        reflexivity.
    + eapply Hone; [apply (visit_fails root file s Hgo Hr)|..]; reflexivity.
  - rewrite (visit_not_go root file s Hgo). apply traversed_refl.
Qed.

(** X8: in every run of [count_go_lines], also one that raises, nothing
    goes to standard output, every path opened ends in ".go", and the file
    counter is the number of paths opened. *)
Theorem only_go_files_are_opened directory fs s :
  stdout (snd (count_go_lines directory fs s)) = stdout s /\
  exists new,
    opened (snd (count_go_lines directory fs s)) = (opened s ++ new)%list /\
    Forall (fun p => endswith p ".go" = true) new /\
    go_files_count (snd (count_go_lines directory fs s)) = Z.of_nat (length new).
Proof.
  assert (H : traversed (reset s) (snd (count_go_lines directory fs s))).
  { rewrite count_go_lines_unfold.
    pose proof (for_each_preserves traversed visit_step
                  (walk_files directory fs) traversed_refl traversed_trans) as Hloop.
    specialize (Hloop (fun x s' _ => traversed_visit (fst x) (snd x) s') (reset s)).
    now destruct (for_each _ _ (reset s)) as [[[]|e] s']. }
  destruct H as (Hout & new & Hnew & Hgo & Hcount).
  split; [exact Hout|]. exists new. repeat split; auto.
Qed.

(** *** Line endings and raw bytes *)

Lemma translate_newlines_no_cr text :
  ~ In CR text -> translate_newlines text = text.
Proof.
  induction text as [|c r IH]; intros Hno; [reflexivity|].
  cbn [translate_newlines].
  destruct (N.eqb_spec c CR) as [->|_]; [exfalso; apply Hno; now left|].
  rewrite IH; [reflexivity|]. intros Hin. apply Hno. now right.
Qed.

Lemma translate_newlines_to_crlf text :
  ~ In CR text -> translate_newlines (to_crlf text) = text.
Proof.
  induction text as [|c r IH]; intros Hno; [reflexivity|].
  assert (Hr : ~ In CR r) by (intros Hin; apply Hno; now right).
  assert (Hc : c <> CR) by (intros ->; apply Hno; now left).
  unfold to_crlf. cbn [flat_map]. fold (to_crlf r).
  destruct (N.eqb_spec c LF) as [->|Hlf].
  - change ([CR; LF] ++ to_crlf r)%list with (CR :: LF :: to_crlf r).
    rewrite translate_newlines_cons2.
    change (CR =? CR)%N with true. change (LF =? LF)%N with true.
    cbv iota. now rewrite IH.
  - change ([c] ++ to_crlf r)%list with (c :: to_crlf r).
    cbn [translate_newlines].
    destruct (N.eqb_spec c CR) as [|_]; [contradiction|]. now rewrite IH.
Qed.

(** X11: a text read with Unix line endings and the same text with every
    "\n" written as "\r\n" give the same lines, hence the same count. *)
Theorem crlf_reads_as_lf text :
  ~ In CR text ->
  readlines (to_crlf text) = readlines text /\
  spec_line_count (to_crlf text) = spec_line_count text.
Proof.
  intros Hno.
  assert (H : readlines (to_crlf text) = readlines text).
  { unfold readlines.
    now rewrite translate_newlines_to_crlf, translate_newlines_no_cr. }
  split; [exact H|]. now rewrite <- !readlines_length, H.
Qed.

Lemma crlf_reads_as_lf_example :
  readlines (to_crlf [97; 10; 98; 10]%N) = readlines [97; 10; 98; 10]%N /\
  spec_line_count (to_crlf [97; 10; 98; 10]%N) = 2.
Proof.
  destruct (crlf_reads_as_lf [97; 10; 98; 10]%N) as [H1 H2].
  - cbn. intros [H|[H|[H|[H|[]]]]]; discriminate H.
  - split; [exact H1|]. rewrite H2. reflexivity.
Defined.

Lemma utf8_decode_cons b0 r0 :
  utf8_decode (b0 :: r0)
  = let x0 := Byte.to_N b0 in
    if (x0 <? 128)%N then option_map (cons x0) (utf8_decode r0)
    else if in_range 194 x0 223 then
      match r0 with
      | b1 :: r1 =>
          let x1 := Byte.to_N b1 in
          if continuation x1
          then option_map (cons ((x0 - 192) * 64 + (x1 - 128))%N) (utf8_decode r1)
          else None
      | _ => None
      end
    else if in_range 224 x0 239 then
      match r0 with
      | b1 :: b2 :: r2 =>
          let x1 := Byte.to_N b1 in
          let x2 := Byte.to_N b2 in
          if in_range (if (x0 =? 224)%N then 160 else 128) x1
                      (if (x0 =? 237)%N then 159 else 191)
             && continuation x2
          then option_map
                 (cons ((x0 - 224) * 4096 + (x1 - 128) * 64 + (x2 - 128))%N)
                 (utf8_decode r2)
          else None
      | _ => None
      end
    else if in_range 240 x0 244 then
      match r0 with
      | b1 :: b2 :: b3 :: r3 =>
          let x1 := Byte.to_N b1 in
          let x2 := Byte.to_N b2 in
          let x3 := Byte.to_N b3 in
          if in_range (if (x0 =? 240)%N then 144 else 128) x1
                      (if (x0 =? 244)%N then 143 else 191)
             && continuation x2 && continuation x3
          then option_map
                 (cons ((x0 - 240) * 262144 + (x1 - 128) * 4096
                        + (x2 - 128) * 64 + (x3 - 128))%N)
                 (utf8_decode r3)
          else None
      | _ => None
      end
    else None.
Proof. reflexivity. Qed.

Lemma utf8_decode_ascii bytes :
  Forall (fun b => (Byte.to_N b < 128)%N) bytes ->
  utf8_decode bytes = Some (raw_text bytes).
Proof.
  induction 1 as [|b bytes Hb _ IH]; [reflexivity|].
  rewrite utf8_decode_cons. cbv zeta.
  rewrite (proj2 (N.ltb_lt _ _) Hb), IH. reflexivity.
Qed.

(** X9: a file named "*.go" that holds ASCII bytes only is always read:
    its step returns, and adds the line count of its bytes to the total. *)
Theorem ascii_file_is_counted root name bytes s :
  endswith name ".go" = true ->
  Forall (fun b => (Byte.to_N b < 128)%N) bytes ->
  fst (visit root (name, Content bytes) s) = Returned tt /\
  total_lines (snd (visit root (name, Content bytes) s))
  = (total_lines s + Z.of_nat (spec_line_count (raw_text bytes)))%Z.
Proof.
  intros Hgo Hascii.
  rewrite (visit_go_readable root (name, Content bytes) bytes (raw_text bytes) s
             Hgo eq_refl (utf8_decode_ascii bytes Hascii)).
  split; reflexivity.
Qed.

Lemma ascii_file_is_counted_b_go :
  fst (visit "." ("b.go", b_go) initial) = Returned tt /\
  total_lines (snd (visit "." ("b.go", b_go) initial)) = 5%Z.
Proof.
  pose (bytes := text_bytes ["package b"; ""; "func B() int {"; "  return 1"; "}"] "").
  destruct (ascii_file_is_counted "." "b.go" bytes initial eq_refl) as [Hret Hlines].
  - repeat constructor.
  - split; [exact Hret|]. unfold b_go. fold bytes. rewrite Hlines.
    vm_compute. reflexivity.
Defined.

Lemma terminators_after_cons b c r :
  terminators_after b (c :: r)
  = if (c =? CR)%N then S (terminators_after true r)
    else if (c =? LF)%N
         then (if b then 0 else 1) + terminators_after false r
    else terminators_after false r.
Proof. reflexivity. Qed.

Lemma terminators_scan text : terminators text = terminators_after false text.
Proof.
  induction text as [|c|x y l IHl IHyl] using list_ind2.
  - reflexivity.
  - cbn. now destruct (c =? CR)%N, (c =? LF)%N.
  - rewrite terminators_cons2, terminators_after_cons.
    destruct (N.eqb_spec x CR) as [_|_].
    + f_equal. rewrite terminators_after_cons.
      destruct (N.eqb_spec y CR) as [->|Hcr].
      * change (CR =? LF)%N with false. cbv iota.
        rewrite IHyl, terminators_after_cons. reflexivity.
      * destruct (N.eqb_spec y LF) as [_|Hlf]; [exact IHl|].
        rewrite IHyl, terminators_after_cons.
        destruct (N.eqb_spec y CR); [contradiction|].
        destruct (N.eqb_spec y LF); [contradiction|reflexivity].
    + destruct (x =? LF)%N; now rewrite IHyl.
Qed.

Lemma unterminated_tail_cons c r :
  unterminated_tail (c :: r) = unterminated_or (negb (is_terminator c)) r.
Proof. now destruct r. Qed.

Lemma high_not_terminator c : (128 <= c)%N -> is_terminator c = false.
Proof.
  intros H. unfold is_terminator, LF, CR.
  destruct (N.eqb_spec c 10), (N.eqb_spec c 13); try reflexivity; lia.
Qed.

(** A run of characters that are not terminators counts like any other. *)
Lemma skip_non_terminators group r :
  group <> [] ->
  Forall (fun c => is_terminator c = false) group ->
  (forall b, terminators_after b (group ++ r) = terminators_after false r) /\
  (forall d, unterminated_or d (group ++ r) = unterminated_or true r).
Proof.
  intros Hne Hall. induction Hall as [|c group Hc _ IH]; [contradiction|].
  unfold is_terminator in Hc. apply orb_false_iff in Hc as [Hlf Hcr].
  assert (Hterm : is_terminator c = false)
    by (unfold is_terminator; now rewrite Hlf, Hcr).
  destruct group as [|c' group].
  - split.
    + intros b. cbn [app]. now rewrite terminators_after_cons, Hcr, Hlf.
    + intros d. cbn [app unterminated_or].
      now rewrite unterminated_tail_cons, Hterm.
  - destruct IH as [IH1 IH2]; [discriminate|]. split.
    + intros b. change ((c :: c' :: group) ++ r)%list with (c :: ((c' :: group) ++ r))%list.
      rewrite terminators_after_cons, Hcr, Hlf. apply IH1.
    + intros d. change ((c :: c' :: group) ++ r)%list with (c :: ((c' :: group) ++ r))%list.
      cbn [unterminated_or]. rewrite unterminated_tail_cons. apply IH2.
Qed.

Ltac range_facts :=
  repeat match goal with
  | H : (_ && _)%bool = true |- _ => apply andb_true_iff in H; destruct H
  | H : in_range _ _ _ = true |- _ => unfold in_range in H
  | H : continuation _ = true |- _ => unfold continuation in H
  | H : (_ <=? _)%N = true |- _ => apply N.leb_le in H
  | H : (_ <? _)%N = false |- _ => apply N.ltb_ge in H
  end.

(** Decoding does not change what the line-splitting rule sees: the bytes
    of a character above ASCII are not terminators, nor is the character. *)
Lemma decode_keeps_lines n :
  forall bytes text,
    length bytes <= n ->
    utf8_decode bytes = Some text ->
    (forall b, terminators_after b text = terminators_after b (raw_text bytes)) /\
    (forall d, unterminated_or d text = unterminated_or d (raw_text bytes)).
Proof.
  induction n as [|n IH]; intros bytes text Hlen Hdec.
  - destruct bytes; [|cbn in Hlen; lia]. injection Hdec as <-. now split.
  - destruct bytes as [|b0 r0]; [injection Hdec as <-; now split|].
    rewrite utf8_decode_cons in Hdec. cbv zeta in Hdec.
    destruct (N.ltb_spec (Byte.to_N b0) 128) as [Hlow|Hhigh].
    { destruct (utf8_decode r0) as [t'|] eqn:Hd; [|discriminate].
      injection Hdec as <-.
      destruct (IH r0 t' ltac:(cbn in Hlen; lia) Hd) as [IH1 IH2].
      unfold raw_text. cbn [map]. fold (raw_text r0). split.
      - intros b. now rewrite !terminators_after_cons, !IH1.
      - intros d. cbn [unterminated_or]. now rewrite !unterminated_tail_cons, IH2. }
    assert (Hx0 : is_terminator (Byte.to_N b0) = false)
      by now apply high_not_terminator.
    destruct (in_range 194 (Byte.to_N b0) 223) eqn:H2.
    { destruct r0 as [|b1 r1]; [discriminate|].
      destruct (continuation (Byte.to_N b1)) eqn:Hc1; [|discriminate].
      destruct (utf8_decode r1) as [t'|] eqn:Hd; [|discriminate].
      injection Hdec as <-. range_facts.
      destruct (IH r1 t' ltac:(cbn in Hlen; lia) Hd) as [IH1 IH2].
      pose proof (skip_non_terminators
                    [((Byte.to_N b0 - 192) * 64 + (Byte.to_N b1 - 128))%N] t')
        as [T1 T2]; [discriminate| |].
      { repeat constructor. apply high_not_terminator. lia. }
      pose proof (skip_non_terminators [Byte.to_N b0; Byte.to_N b1] (raw_text r1))
        as [R1 R2]; [discriminate| |].
      { repeat constructor; auto. apply high_not_terminator. lia. }
      cbn [app] in T1, T2, R1, R2. unfold raw_text. cbn [map]. fold (raw_text r1).
      split; intros; now rewrite ?T1, ?T2, ?R1, ?R2. }
    destruct (in_range 224 (Byte.to_N b0) 239) eqn:H3.
    { destruct r0 as [|b1 [|b2 r2]]; try discriminate.
      destruct (in_range _ (Byte.to_N b1) _ && continuation (Byte.to_N b2))
        eqn:Hc; [|discriminate].
      destruct (utf8_decode r2) as [t'|] eqn:Hd; [|discriminate].
      injection Hdec as <-. range_facts.
      destruct (IH r2 t' ltac:(cbn in Hlen; lia) Hd) as [IH1 IH2].
      pose proof (skip_non_terminators
                    [((Byte.to_N b0 - 224) * 4096 + (Byte.to_N b1 - 128) * 64
                      + (Byte.to_N b2 - 128))%N] t')
        as [T1 T2]; [discriminate| |].
      { repeat constructor. apply high_not_terminator.
        destruct (N.eqb_spec (Byte.to_N b0) 224); lia. }
      pose proof (skip_non_terminators
                    [Byte.to_N b0; Byte.to_N b1; Byte.to_N b2] (raw_text r2))
        as [R1 R2]; [discriminate| |].
      { repeat constructor; auto; apply high_not_terminator;
          destruct (N.eqb_spec (Byte.to_N b0) 224); lia. }
      cbn [app] in T1, T2, R1, R2. unfold raw_text. cbn [map]. fold (raw_text r2).
      split; intros; now rewrite ?T1, ?T2, ?R1, ?R2. }
    destruct (in_range 240 (Byte.to_N b0) 244) eqn:H4; [|discriminate].
    destruct r0 as [|b1 [|b2 [|b3 r3]]]; try discriminate.
    destruct (in_range _ (Byte.to_N b1) _ && continuation (Byte.to_N b2)
              && continuation (Byte.to_N b3)) eqn:Hc; [|discriminate].
    destruct (utf8_decode r3) as [t'|] eqn:Hd; [|discriminate].
    injection Hdec as <-. range_facts.
    destruct (IH r3 t' ltac:(cbn in Hlen; lia) Hd) as [IH1 IH2].
    pose proof (skip_non_terminators
                  [((Byte.to_N b0 - 240) * 262144 + (Byte.to_N b1 - 128) * 4096
                    + (Byte.to_N b2 - 128) * 64 + (Byte.to_N b3 - 128))%N] t')
      as [T1 T2]; [discriminate| |].
    { repeat constructor. apply high_not_terminator.
      destruct (N.eqb_spec (Byte.to_N b0) 240); lia. }
    pose proof (skip_non_terminators
                  [Byte.to_N b0; Byte.to_N b1; Byte.to_N b2; Byte.to_N b3]
                  (raw_text r3))
      as [R1 R2]; [discriminate| |].
    { repeat constructor; auto; apply high_not_terminator;
        destruct (N.eqb_spec (Byte.to_N b0) 240); lia. }
    cbn [app] in T1, T2, R1, R2. unfold raw_text. cbn [map]. fold (raw_text r3).
    split; intros; now rewrite ?T1, ?T2, ?R1, ?R2.
Qed.

(** X10: the line count of a file that decodes is the line count of its
    raw bytes: decoding decides whether the file can be read, not how many
    lines it has. *)
Theorem line_count_of_raw_bytes bytes :
  readable (Content bytes) = true ->
  file_lines (Content bytes) = spec_line_count (raw_text bytes).
Proof.
  unfold readable, file_lines.
  destruct (utf8_decode bytes) as [text|] eqn:Hdec; [intros _|discriminate].
  destruct (decode_keeps_lines (length bytes) bytes text (le_n _) Hdec) as [H1 H2].
  unfold spec_line_count. rewrite !terminators_scan, H1.
  replace (unterminated_tail text) with (unterminated_or false text)
    by now destruct text.
  rewrite (H2 false). now destruct (raw_text bytes).
Qed.

Lemma line_count_of_raw_bytes_accents :
  file_lines (Content [xc3; xa9; x0d; x0a; xe2; x82; xac; x0a; xf0; x9f; x98; x80]%byte)
  = 3.
Proof.
  rewrite (line_count_of_raw_bytes
             [xc3; xa9; x0d; x0a; xe2; x82; xac; x0a; xf0; x9f; x98; x80]%byte eq_refl).
  reflexivity.
Defined.

(** *** Paths *)

Lemma startswith_iff s pre :
  startswith s pre = true <-> exists rest, s = pre ++ rest.
Proof.
  unfold startswith. revert s. induction pre as [|c pre IH]; intros s.
  - split; [intros _; now exists s|intros _; now destruct s].
  - destruct s as [|d s]; cbn [prefix].
    + split; [discriminate|]. intros [rest H]. discriminate H.
    + destruct (ascii_dec c d) as [->|Hne].
      * rewrite IH. split; intros [rest H]; exists rest.
        -- cbn. now rewrite H.
        -- cbn in H. now injection H.
      * split; [discriminate|]. intros [rest H]. cbn in H. injection H as H _.
        now subst.
Qed.

Lemma os_path_join_extends root name :
  startswith name "/" = false -> exists rest, os_path_join root name = root ++ rest.
Proof.
  intros H. unfold os_path_join. rewrite H. destruct (_ || _); eauto.
Qed.

Lemma in_nondirs f entries :
  In f (nondirs entries) -> In (File (fst f) (snd f)) entries.
Proof.
  unfold nondirs. rewrite in_flat_map. intros (e & He & Hf).
  destruct e; try contradiction. destruct Hf as [<-|[]]. exact He.
Qed.

(** The roots of a walk extend the directory it starts from, and the files
    it reaches have the names of entries of the tree. *)
Lemma walk_files_roots fs :
  relative_names fs = true ->
  forall directory root f,
    In (root, f) (walk_files directory fs) ->
    (exists rest, root = directory ++ rest) /\ startswith (fst f) "/" = false.
Proof.
  induction fs as [name st|name entries IH|name] using node_ind;
    intros Hrel directory root f Hin; try contradiction.
  cbn [relative_names] in Hrel. apply andb_true_iff in Hrel as [_ Hrel].
  rewrite forallb_forall in Hrel. rewrite Forall_forall in IH.
  rewrite walk_files_dir in Hin. apply in_app_or in Hin as [Hin|Hin].
  - apply in_map_iff in Hin as (f' & Heq & Hin). injection Heq as <- <-.
    split; [exists ""; now rewrite append_empty_r|].
    apply in_nondirs, Hrel in Hin. cbn in Hin.
    apply andb_true_iff in Hin as [Hin _]. now apply negb_true_iff in Hin.
  - apply in_flat_map in Hin as (e & He & Hin).
    destruct (is_dir e); [|contradiction].
    specialize (Hrel e He) as Hrel_e.
    destruct (IH e He Hrel_e _ root f Hin) as [[rest ->] Hf].
    split; [|exact Hf].
    assert (Hname : startswith (node_name e) "/" = false).
    { destruct e; cbn [relative_names node_name] in *;
        apply andb_true_iff in Hrel_e as [H _]; now apply negb_true_iff in H. }
    destruct (os_path_join_extends directory (node_name e) Hname) as [rest' ->].
    exists (rest' ++ rest). now rewrite append_assoc.
Qed.

Lemma visit_opened root file s :
  opened (snd (visit root file s)) = opened s \/
  opened (snd (visit root file s))
  = (opened s ++ [os_path_join root (fst file)])%list.
Proof.
  destruct (is_go file) eqn:Hgo.
  - right. destruct (readable (snd file)) eqn:Hr.
    + unfold readable in Hr. destruct (snd file) as [|bytes] eqn:Hst; [discriminate|].
      destruct (utf8_decode bytes) as [text|] eqn:Hdec; [|discriminate].
      now rewrite (visit_go_readable root file bytes text s Hgo Hst Hdec).
    + now rewrite (visit_fails root file s Hgo Hr).
  - left. now rewrite (visit_not_go root file s Hgo).
Qed.

(** X12: on a tree whose entry names do not start with "/", every path
    that [count_go_lines] opens starts with the directory it was given. *)
Theorem opens_only_below_directory directory fs s :
  relative_names fs = true ->
  forall p,
    In p (opened (snd (count_go_lines directory fs s))) ->
    In p (opened s) \/ startswith p directory = true.
Proof.
  intros Hrel.
  set (R := fun s1 s2 : process =>
              forall p, In p (opened s2) ->
                        In p (opened s1) \/ startswith p directory = true).
  assert (H : R (reset s) (snd (count_go_lines directory fs s))).
  { rewrite count_go_lines_unfold.
    pose proof (for_each_preserves R visit_step (walk_files directory fs)) as Hloop.
    assert (Hend : R (reset s)
                     (snd (for_each (walk_files directory fs) visit_step (reset s)))).
    { apply Hloop.
      - intros s1 p Hp. now left.
      - intros s1 s2 s3 H12 H23 p Hp.
        destruct (H23 p Hp) as [Hp2|Hp2]; [now apply H12|now right].
      - intros [root f] s1 Hin p Hp.
        change (visit_step (root, f)) with (visit root f) in Hp.
        destruct (visit_opened root f s1) as [Heq|Heq]; rewrite Heq in Hp;
          [now left|].
        apply in_app_or in Hp as [Hp|[<-|[]]]; [now left|right].
        destruct (walk_files_roots fs Hrel directory root f Hin) as [[rest ->] Hf].
        destruct (os_path_join_extends (directory ++ rest) (fst f) Hf) as [rest' ->].
        apply startswith_iff. exists (rest ++ rest'). now rewrite append_assoc. }
    now destruct (for_each _ _ (reset s)) as [[[]|e] s']. }
  exact H.
Qed.

Lemma opens_only_below_directory_nested :
  Forall (fun p => startswith p "src" = true)
         (opened (snd (count_go_lines "src" nested_tree initial))).
Proof.
  apply Forall_forall. intros p Hin.
  destruct (opens_only_below_directory "src" nested_tree initial eq_refl p Hin)
    as [[]|H].
  exact H.
Defined.

End LineCountMore.
